(** * Activity telemetry normalisation pipeline (src/app.py)

    A shallow embedding of the parsing core of [app.py]: the safe scalar
    parsers, the FIT and TCX extractors, the series projector and the batch
    aggregator, together with the properties stated about them.

    Conventions of the embedding.
    - A Python [str] is a [string]: a sequence of code points below 256.
    - A Python [float] is an IEEE 754 binary64 value, [spec_float] with
      precision 53 and maximal exponent 1024; arithmetic is the correctly
      rounded arithmetic of [SpecFloat].
    - A Python [int] is a [Z].
    - A call that may raise returns a [Result]; [try]/[except] is
      [try_except].
    - The collaborators of the program (the FIT decoder [fitparse], the XML
      parser [lxml], [pandas.to_datetime] and [DataFrame.sort_values]) are the
      fields of [Collaborators]; only the calls [app.py] makes are modelled. *)

From Stdlib Require Import ZArith List String Ascii Strings.Byte SpecFloat Lia.
From stdpp Require Import gmap strings list sorting pretty.

Local Open Scope Z_scope.

(** ** Python values, exceptions and builtins *)

Module Py.

Inductive Exception :=
  | ValueError
  | TypeError
  | OverflowError
  | KeyError
  | FitParseError
  | XMLSyntaxError
  | XPathEvalError
  | ReferenceError.

Global Instance Exception_eq_dec : EqDecision Exception.
Proof. solve_decision. Defined.

(** The outcome of a call: a value, or a raised exception. *)
Inductive Result (A : Type) :=
  | Ok (a : A)
  | Raise (e : Exception).
Arguments Ok {A} a.
Arguments Raise {A} e.

Global Instance Result_ret : MRet Result := @Ok.
Global Instance Result_bind : MBind Result := λ A B k m,
  match m with
  | Ok a => k a
  | Raise e => Raise e
  end.

(** [try: body except caught: handler]. *)
Definition try_except {A} (body : Result A) (caught : list Exception)
    (handler : Result A) : Result A :=
  match body with
  | Ok a => Ok a
  | Raise e => if bool_decide (e ∈ caught) then handler else Raise e
  end.

(** A loop [for x in xs: acc = body(acc, x)] whose body may raise. *)
Fixpoint for_each {A S} (body : S → A → Result S) (xs : list A) (acc : S)
    : Result S :=
  match xs with
  | [] => Ok acc
  | x :: xs' => acc' ← body acc x; for_each body xs' acc'
  end.

(** *** Strings *)

Definition chars (s : string) : list ascii := list_ascii_of_string s.
Definition of_chars (l : list ascii) : string := string_of_list_ascii l.

Definition ord (c : ascii) : N := N_of_ascii c.

(** [str.isspace] on one code point below 256. *)
Definition isspace (c : ascii) : bool :=
  let n := ord c in
  ((9 <=? n) && (n <=? 13) || (28 <=? n) && (n <=? 32)
   || (n =? 133) || (n =? 160))%N.

Fixpoint lstrip (l : list ascii) : list ascii :=
  match l with
  | c :: l' => if isspace c then lstrip l' else l
  | [] => []
  end.

Definition rstrip (l : list ascii) : list ascii := rev (lstrip (rev l)).

(** [str.strip()] *)
Definition strip (s : string) : string := of_chars (rstrip (lstrip (chars s))).

(** [str.lower()] on one code point below 256. *)
Definition lower_char (c : ascii) : ascii :=
  let n := ord c in
  if ((65 <=? n) && (n <=? 90)
      || (192 <=? n) && (n <=? 222) && negb (n =? 215))%N
  then ascii_of_N (n + 32) else c.

Definition lower (s : string) : string := of_chars (lower_char <$> chars s).

(** [s.endswith(suffix)] *)
Definition endswith (s suffix : string) : bool :=
  bool_decide
    (drop (length (chars s) - length (chars suffix))%nat (chars s)
     = chars suffix).

(** *** Floats *)

Definition float := spec_float.
Definition prec : Z := 53.
Definition emax : Z := 1024.

Global Instance float_eq_dec : EqDecision float.
Proof. unfold float. solve_decision. Defined.

(** [x * y] *)
Definition fmul : float → float → float := SFmul prec emax.

Definition isnan (f : float) : bool :=
  match f with S754_nan => true | _ => false end.

Definition is_digit (c : ascii) : bool :=
  let n := ord c in ((48 <=? n) && (n <=? 57))%N.

Definition digit_value (c : ascii) : Z := Z.of_N (ord c) - 48.

Definition digits_value (ds : list ascii) : Z :=
  fold_left (λ acc c, 10 * acc + digit_value c) ds 0.

Fixpoint span_digits (l : list ascii) : list ascii * list ascii :=
  match l with
  | c :: l' =>
      if is_digit c then let '(ds, r) := span_digits l' in (c :: ds, r)
      else ([], l)
  | [] => ([], [])
  end.

(** The underscore rule of numeric literals: an underscore is accepted only
    between two digits, and is dropped. *)
Fixpoint drop_underscores (prev : ascii) (l : list ascii)
    : option (list ascii) :=
  match l with
  | [] => if bool_decide (prev = "_"%char) then None else Some []
  | c :: l' =>
      if bool_decide (c = "_"%char)
      then if is_digit prev then drop_underscores c l' else None
      else if bool_decide (prev = "_"%char) && negb (is_digit c) then None
      else (c ::.) <$> drop_underscores c l'
  end.

Definition parse_sign (l : list ascii) : bool * list ascii :=
  match l with
  | "-"%char :: r => (true, r)
  | "+"%char :: r => (false, r)
  | _ => (false, l)
  end.

(** The exponent part, which has to reach the end of the text. *)
Definition parse_exponent (l : list ascii) : option Z :=
  match l with
  | [] => Some 0
  | c :: r =>
      if bool_decide (c = "e"%char) || bool_decide (c = "E"%char) then
        let '(neg, r1) := parse_sign r in
        let '(ds, r2) := span_digits r1 in
        match ds, r2 with
        | _ :: _, [] => Some (if neg then - digits_value ds else digits_value ds)
        | _, _ => None
        end
      else None
  end.

(** [digits [. digits] [exponent]] or [. digits [exponent]], as the pair of
    an integer mantissa and a power of ten. *)
Definition parse_decimal (l : list ascii) : option (Z * Z) :=
  let '(ip, r1) := span_digits l in
  let '(fp, r2) :=
    match r1 with
    | "."%char :: r => span_digits r
    | _ => ([], r1)
    end in
  match ip ++ fp with
  | [] => None
  | ds => e ← parse_exponent r2; Some (digits_value ds, e - Z.of_nat (length fp))
  end.

Definition tolower_ascii (c : ascii) : ascii :=
  let n := ord c in
  if ((65 <=? n) && (n <=? 90))%N then ascii_of_N (n + 32) else c.

Definition parse_inf_or_nan (l : list ascii) : option float :=
  let '(neg, r) := parse_sign l in
  let w := of_chars (tolower_ascii <$> r) in
  if bool_decide (w = "inf"%string) || bool_decide (w = "infinity"%string)
  then Some (S754_infinity neg)
  else if bool_decide (w = "nan"%string) then Some S754_nan
  else None.

(** The binary64 value nearest to [m * 10 ^ e] (ties to even), with overflow
    to an infinity. *)
Definition float_of_decimal (neg : bool) (m e : Z) : float :=
  match m with
  | Z0 => S754_zero neg
  | Zpos p =>
      if 0 <=? e
      then binary_round prec emax neg (Z.to_pos (Zpos p * 10 ^ e)) 0
      else SFdiv prec emax (S754_finite neg p 0)
             (S754_finite false (Z.to_pos (10 ^ (- e))) 0)
  | Zneg _ => S754_nan
  end.

(** [float(s)] for a string. *)
Definition float_of_string (s : string) : Result float :=
  match drop_underscores zero (chars (strip s)) with
  | None => Raise ValueError
  | Some l =>
      let '(neg, r) := parse_sign l in
      match parse_decimal r with
      | Some (m, e) => Ok (float_of_decimal neg m e)
      | None =>
          match parse_inf_or_nan l with
          | Some f => Ok f
          | None => Raise ValueError
          end
      end
  end.

(** [float(n)] for an int: the nearest binary64 value, [OverflowError]
    when there is none. *)
Definition float_of_int (n : Z) : Result float :=
  match binary_normalize prec emax n 0 false with
  | S754_infinity _ => Raise OverflowError
  | f => Ok f
  end.

(** [int(f)] for a float: truncation towards zero. *)
Definition int_of_float (f : float) : Result Z :=
  match f with
  | S754_nan => Raise ValueError
  | S754_infinity _ => Raise OverflowError
  | S754_zero _ => Ok 0
  | S754_finite s m e =>
      let a := if 0 <=? e then Z.shiftl (Zpos m) e else Z.shiftr (Zpos m) (- e) in
      Ok (if s then - a else a)
  end.

(** *** The values the program handles *)

Inductive Value :=
  | PNone
  | PInt (n : Z)
  | PFloat (f : float)
  | PStr (s : string)
  | PDatetime (ns : Z).

Global Instance Value_eq_dec : EqDecision Value.
Proof. solve_decision. Defined.

(** [v is None] *)
Definition is_none (v : Value) : bool :=
  match v with PNone => true | _ => false end.

(** [float(v)] *)
Definition to_float (v : Value) : Result float :=
  match v with
  | PNone => Raise TypeError
  | PInt n => float_of_int n
  | PFloat f => Ok f
  | PStr s => float_of_string s
  | PDatetime _ => Raise TypeError
  end.

End Py.
Export Py.

(** [safe_int] and [safe_float], lines 93-114 of app.py. *)

Definition safe_int (value : option string) : Result (option Z) :=
  match value with
  | None => Ok None
  | Some value =>
      let value_stripped := strip value in
      if bool_decide (value_stripped = ""%string) then Ok None
      else
        try_except
          (f ← float_of_string value_stripped; n ← int_of_float f; Ok (Some n))
          [ValueError; TypeError]
          (Ok None)
  end.

Definition safe_float (value : option string) : Result (option float) :=
  match value with
  | None => Ok None
  | Some value =>
      let value_stripped := strip value in
      if bool_decide (value_stripped = ""%string) then Ok None
      else
        try_except
          (f ← float_of_string value_stripped; Ok (Some f))
          [ValueError; TypeError]
          (Ok None)
  end.

(** ** Data model *)

(** A row: the dict built by the extractors, and a line of the DataFrame made
    of such dicts. In the [timestamp] column [PNone] is [NaT]. pandas may
    hold the integers of a column as floats; a cell is read only through
    [pd.isna] and [float], which give the same on both. *)
Record Row := {
  timestamp : Value;
  hr_bpm : Value;
  power_w : Value;
  speed_kmh : Value;
}.

Global Instance Row_eq_dec : EqDecision Row.
Proof. solve_decision. Defined.

(** A DataFrame over the four columns of [Row]. [pd.DataFrame()], which has
    no column, and a frame whose lines were all dropped are both the empty
    list: app.py asks the former for [.empty] only. *)
Definition DataFrame := list Row.

(** [df.empty] *)
Definition empty (df : DataFrame) : bool :=
  match df with [] => true | _ => false end.

(** [pd.isna] on a cell. *)
Definition isna (v : Value) : bool :=
  match v with
  | PNone => true
  | PFloat f => isnan f
  | _ => false
  end.

(** The cell of the column named [col]; [None] when there is no such column. *)
Definition column (col : string) (r : Row) : option Value :=
  if bool_decide (col = "timestamp"%string) then Some (timestamp r)
  else if bool_decide (col = "hr_bpm"%string) then Some (hr_bpm r)
  else if bool_decide (col = "power_w"%string) then Some (power_w r)
  else if bool_decide (col = "speed_kmh"%string) then Some (speed_kmh r)
  else None.

Definition is_column (col : string) : bool :=
  bool_decide (col ∈ ["timestamp"; "hr_bpm"; "power_w"; "speed_kmh"]%string).

(** A line is kept by [dropna(subset=...)] when none of the named cells is
    missing. *)
Definition complete (subset : list string) (r : Row) : bool :=
  forallb (λ col, match column col r with
                  | Some v => negb (isna v)
                  | None => false
                  end) subset.

(** [df.dropna(subset=subset)] on a frame with lines. *)
Definition dropna (subset : list string) (df : DataFrame) : Result DataFrame :=
  if forallb is_column subset
  then Ok (List.filter (complete subset) df)
  else Raise KeyError.

(** The integer view of a cell of the [timestamp] column: nanoseconds since
    the epoch, and the least int64 for [NaT]. *)
Definition iNaT : Z := - 2 ^ 63.

Definition astype_int64 (v : Value) : Z :=
  match v with
  | PDatetime ns => ns
  | _ => iNaT
  end.

(** A decoded FIT field, and a FIT message as the sequence of its fields. *)
Record FieldData := { field_name : string; field_value : Value }.
Definition Message := list FieldData.

(** An element of an lxml tree: its namespace map, the namespace URI and
    local name of its tag, its text and its child elements. *)
#[warnings="-register-all"]
Inductive Element :=
  | Elem (nsmap : list (option string * string)) (ns : option string)
         (tag : string) (text : option string) (children : list Element).

Definition el_nsmap (e : Element) := let 'Elem m _ _ _ _ := e in m.
Definition el_ns (e : Element) := let 'Elem _ n _ _ _ := e in n.
Definition el_tag (e : Element) := let 'Elem _ _ t _ _ := e in t.
Definition el_text (e : Element) := let 'Elem _ _ _ t _ := e in t.
Definition el_children (e : Element) := let 'Elem _ _ _ _ c := e in c.

(** An uploaded file. *)
Record UploadFile := { filename : option string; content : list Byte.byte }.

(** A chart series, [{"name": ..., "data": [[ms, value], ...]}]. *)
Record Series := { name : string; data : list (Z * float) }.

(** The response, [{"series": series_by_metric}]. *)
Record Response := { series : gmap string (list Series) }.

(** ** Collaborators *)

Class Collaborators := {
  (** [FitFile(io.BytesIO(b)).get_messages("record")], read to its end *)
  fit_get_messages : list Byte.byte → Result (list Message);
  (** [etree.fromstring(b)] *)
  xml_fromstring : list Byte.byte → Result Element;
  (** [pd.to_datetime(v, utc=True, errors="coerce")], on a scalar and on
      each cell of a column: nanoseconds since the epoch, or [None] for
      [NaT] *)
  to_datetime : Value → option Z;
  (** [numpy.argsort] with the default kind, as [sort_values] calls it *)
  argsort : list Z → list nat;
}.

(** What [argsort] promises: the indices are a permutation of the positions,
    and reading the keys through them gives a non-decreasing sequence. *)
Definition argsort_spec (sorter : list Z → list nat) : Prop :=
  ∀ keys : list Z,
    sorter keys ≡ₚ seq 0 (length keys)
    ∧ Sorted Z.le (omap (λ i, keys !! i) (sorter keys)).

(** ** The program *)

Definition SUPPORTED_METRICS : list string :=
  ["hr_bpm"; "speed_kmh"; "power_w"]%string.

Definition set_timestamp (v : Value) (r : Row) : Row :=
  {| timestamp := v; hr_bpm := hr_bpm r; power_w := power_w r;
     speed_kmh := speed_kmh r |}.
Definition set_hr_bpm (v : Value) (r : Row) : Row :=
  {| timestamp := timestamp r; hr_bpm := v; power_w := power_w r;
     speed_kmh := speed_kmh r |}.
Definition set_power_w (v : Value) (r : Row) : Row :=
  {| timestamp := timestamp r; hr_bpm := hr_bpm r; power_w := v;
     speed_kmh := speed_kmh r |}.
Definition set_speed_kmh (v : Value) (r : Row) : Row :=
  {| timestamp := timestamp r; hr_bpm := hr_bpm r; power_w := power_w r;
     speed_kmh := v |}.

(** The literal [3.6]. *)
Definition three_point_six : float := S754_finite false 8106479329266893 (-51).

(** [df.take(indexer)] *)
Definition take_rows {A} (l : list A) (indexer : list nat) : list A :=
  omap (λ i, l !! i) indexer.

Definition TCX_V2 : string :=
  "http://www.garmin.com/xmlschemas/TrainingCenterDatabase/v2".

(** [normalize_tcx_nsmap], lines 65-79. The namespace map of an element is a
    dict: its keys are distinct. *)
Definition normalize_tcx_nsmap (root : Element) : gmap string string :=
  let raw_nsmap := el_nsmap root in
  let normalized_nsmap :=
    fold_left (λ (acc : gmap string string) '(key, value),
      if bool_decide (value = ""%string) then acc
      else match key with
           | None => <["tcx"%string := value]> acc
           | Some key => <[key := value]> acc
           end) raw_nsmap ∅ in
  match normalized_nsmap !! "tcx"%string with
  | Some _ => normalized_nsmap
  | None => <["tcx"%string := TCX_V2]> normalized_nsmap
  end.

(** A name test [prefix:local] of a path. *)
Definition QName : Type := string * string.

Definition resolve (nsmap : gmap string string) (q : QName)
    : Result (string * string) :=
  match nsmap !! q.1 with
  | Some uri => Ok (uri, q.2)
  | None => Raise XPathEvalError
  end.

Definition has_name (n : string * string) (e : Element) : bool :=
  bool_decide (el_ns e = Some n.1 ∧ el_tag e = n.2).

Fixpoint descendants_or_self (e : Element) : list Element :=
  match e with
  | Elem _ _ _ _ cs => e :: flat_map descendants_or_self cs
  end.

(** [root.xpath("//p:name", namespaces=nsmap)]: the elements of the document
    with that name, in document order. *)
Definition xpath_all (root : Element) (q : QName) (nsmap : gmap string string)
    : Result (list Element) :=
  n ← resolve nsmap q;
  Ok (List.filter (has_name n) (descendants_or_self root)).

(** [node.xpath("./p:a/q:b", namespaces=nsmap)]: one child step per name. *)
Definition xpath_children (node : Element) (path : list QName)
    (nsmap : gmap string string) : Result (list Element) :=
  names ← mapM (resolve nsmap) path;
  Ok (fold_left
        (λ nodes n, flat_map (λ e, List.filter (has_name n) (el_children e)) nodes)
        names [node]).

(** [get_first_xpath_text], lines 82-90; the paths app.py evaluates select
    elements. *)
Definition get_first_xpath_text (node : Element) (xpath_expr : list QName)
    (nsmap : gmap string string) : Result (option string) :=
  found ← xpath_children node xpath_expr nsmap;
  match found with
  | [] => Ok None
  | first_item :: _ => Ok (el_text first_item)
  end.

Definition of_option_int (o : option Z) : Value :=
  match o with Some n => PInt n | None => PNone end.

Definition of_option_datetime (o : option Z) : Value :=
  match o with Some ns => PDatetime ns | None => PNone end.

Section Program.
Context `{Collaborators}.

(** [df.sort_values("timestamp")]: the lines with a timestamp, taken in the
    order [argsort] gives for their timestamps, then the lines without. *)
Definition sort_values (df : DataFrame) : DataFrame :=
  let present := List.filter (λ r, negb (isna (timestamp r))) df in
  let missing := List.filter (λ r, isna (timestamp r)) df in
  take_rows present (argsort ((λ r, astype_int64 (timestamp r)) <$> present))
  ++ missing.

(** The body of [for field in record], lines 43-51. *)
Definition fit_field (row : Row) (field : FieldData) : Result Row :=
  if bool_decide (field_name field = "timestamp"%string)
  then Ok (set_timestamp (field_value field) row)
  else if bool_decide (field_name field = "heart_rate"%string)
  then Ok (set_hr_bpm (field_value field) row)
  else if bool_decide (field_name field = "power"%string)
  then Ok (set_power_w (field_value field) row)
  else if bool_decide (field_name field = "speed"%string)
  then
    if negb (is_none (field_value field))
    then f ← to_float (field_value field);
         Ok (set_speed_kmh (PFloat (fmul f three_point_six)) row)
    else Ok row
  else Ok row.

Definition new_row : Row :=
  {| timestamp := PNone; hr_bpm := PNone; power_w := PNone; speed_kmh := PNone |}.

(** The row of one record message, lines 35-51. *)
Definition fit_row (record : Message) : Result Row :=
  for_each fit_field record new_row.

(** The body of [for record in ...], lines 35-54. *)
Definition fit_record (rows : list Row) (record : Message) : Result (list Row) :=
  row ← fit_row record;
  Ok (if negb (is_none (timestamp row)) then rows ++ [row] else rows).

(** [parse_fit_bytes], lines 30-62. *)
Definition parse_fit_bytes (file_bytes : list Byte.byte) : Result DataFrame :=
  records ← fit_get_messages file_bytes;
  rows ← for_each fit_record records [];
  let df_data : DataFrame := rows in
  if empty df_data then Ok df_data
  else
    let df_data :=
      (λ r, set_timestamp (of_option_datetime (to_datetime (timestamp r))) r)
        <$> df_data in
    df_data ← dropna ["timestamp"%string] df_data;
    Ok (sort_values df_data).

(** The body of [for trackpoint in trackpoints], lines 125-142. *)
Definition tcx_trackpoint (nsmap : gmap string string) (rows : list Row)
    (trackpoint : Element) : Result (list Row) :=
  time_text ← get_first_xpath_text trackpoint [("tcx", "Time")]%string nsmap;
  match time_text with
  | None => Ok rows
  | Some time_text =>
      if bool_decide (time_text = ""%string) then Ok rows
      else
        match to_datetime (PStr time_text) with
        | None => Ok rows
        | Some timestamp =>
            hr_text ← get_first_xpath_text trackpoint
                        [("tcx", "HeartRateBpm"); ("tcx", "Value")]%string nsmap;
            hr ← safe_int hr_text;
            Ok (rows ++ [ {| timestamp := PDatetime timestamp;
                             hr_bpm := of_option_int hr;
                             power_w := PNone;
                             speed_kmh := PNone |} ])
        end
  end.

(** [parse_tcx_bytes], lines 117-149. *)
Definition parse_tcx_bytes (file_bytes : list Byte.byte) : Result DataFrame :=
  root ← xml_fromstring file_bytes;
  let nsmap := normalize_tcx_nsmap root in
  trackpoints ← xpath_all root ("tcx", "Trackpoint")%string nsmap;
  rows ← for_each (tcx_trackpoint nsmap) trackpoints [];
  let df_data : DataFrame := rows in
  if empty df_data then Ok df_data
  else
    df_data ← dropna ["timestamp"%string] df_data;
    Ok (sort_values df_data).

(** [extract_dataframe_from_file], lines 152-158. *)
Definition extract_dataframe_from_file (filename : string)
    (file_bytes : list Byte.byte) : Result DataFrame :=
  let lowered_name := lower filename in
  if endswith lowered_name ".fit" then parse_fit_bytes file_bytes
  else if endswith lowered_name ".tcx" then parse_tcx_bytes file_bytes
  else Ok [].

End Program.

(** [df[col].tolist()] *)
Definition tolist (col : string) (df : DataFrame) : Result (list Value) :=
  mapM (λ r, match column col r with
             | Some v => Ok v
             | None => Raise KeyError
             end) df.

(** The body of [for ts_value, metric_value in zip(...)], lines 174-176. *)
Definition add_point (points : list (Z * float)) (p : Z * Value)
    : Result (list (Z * float)) :=
  if is_none p.2 then Ok points
  else f ← to_float p.2; Ok (points ++ [(p.1, f)]).

(** [dataframe_to_apex_series], lines 161-178. *)
Definition dataframe_to_apex_series (df_data : DataFrame)
    (value_column series_name : string) : Result Series :=
  if empty df_data then Ok {| name := series_name; data := [] |}
  else
    df_metric ← dropna ["timestamp"%string; value_column] df_data;
    if empty df_metric then Ok {| name := series_name; data := [] |}
    else
      let timestamp_ms :=
        (λ r, astype_int64 (timestamp r) `div` 1000000) <$> df_metric in
      values ← tolist value_column df_metric;
      points ← for_each add_point (zip timestamp_ms values) [];
      Ok {| name := series_name; data := points |}.

(** [init_series_response], lines 181-182. *)
Definition init_series_response : gmap string (list Series) :=
  list_to_map ((λ metric, (metric, [])) <$> SUPPORTED_METRICS).

Section Batch.
Context `{Collaborators}.

(** The body of [for metric in SUPPORTED_METRICS], lines 198-200. *)
Definition add_metric (df_data : DataFrame) (filename : string)
    (series_by_metric : gmap string (list Series)) (metric : string)
    : Result (gmap string (list Series)) :=
  apex_series ← dataframe_to_apex_series df_data metric filename;
  match data apex_series with
  | [] => Ok series_by_metric
  | _ :: _ =>
      match series_by_metric !! metric with
      | Some l => Ok (<[metric := l ++ [apex_series]]> series_by_metric)
      | None => Raise KeyError
      end
  end.

(** [uploaded_file.filename or "file"] *)
Definition filename_or_file (uploaded_file : UploadFile) : string :=
  match filename uploaded_file with
  | None => "file"
  | Some n => if bool_decide (n = ""%string) then "file" else n
  end.

(** The body of [for uploaded_file in files], lines 190-200. *)
Definition add_file (series_by_metric : gmap string (list Series))
    (uploaded_file : UploadFile) : Result (gmap string (list Series)) :=
  let filename := filename_or_file uploaded_file in
  let file_bytes := content uploaded_file in
  df_data ← extract_dataframe_from_file filename file_bytes;
  if empty df_data then Ok series_by_metric
  else for_each (add_metric df_data filename) SUPPORTED_METRICS series_by_metric.

(** [parse_activity_files], lines 185-202. *)
Definition parse_activity_files (files : list UploadFile) : Result Response :=
  series_by_metric ← for_each add_file files init_series_response;
  Ok {| series := series_by_metric |}.

End Batch.

(** ** The projector on frames held by reference

    In app.py a DataFrame is an object and [df_data] a reference to it. To
    speak about what a call leaves behind, the projector is given a second
    time over a store of frames: [dropna] allocates its result, nothing is
    written through [df_data]. *)

Module Frames.

Abbreviation Store := (gmap nat DataFrame).
Definition St (A : Type) : Type := Store → Result (A * Store).

Definition st_ret {A} (a : A) : St A := λ h, Ok (a, h).
Definition st_bind {A B} (m : St A) (k : A → St B) : St B := λ h,
  match m h with
  | Ok (a, h') => k a h'
  | Raise e => Raise e
  end.
Definition st_lift {A} (m : Result A) : St A := λ h,
  match m with
  | Ok a => Ok (a, h)
  | Raise e => Raise e
  end.

Notation "x ⇐ m ; k" := (st_bind m (λ x, k))
  (at level 20, m at level 100, k at level 200, right associativity,
   only parsing).

(** Dereference; a reference handed out by the store is never dangling. *)
Definition deref (r : nat) : St DataFrame := λ h,
  match h !! r with
  | Some df => Ok (df, h)
  | None => Raise ReferenceError
  end.

(** A new frame object. *)
Definition alloc (df : DataFrame) : St nat := λ h,
  let r := fresh (dom h) in Ok (r, <[r := df]> h).

(** [df.empty] *)
Definition st_empty (r : nat) : St bool :=
  df ⇐ deref r; st_ret (empty df).

(** [df.dropna(subset=subset)]: a new frame, the receiver is not modified. *)
Definition st_dropna (subset : list string) (r : nat) : St nat :=
  df ⇐ deref r; df' ⇐ st_lift (dropna subset df); alloc df'.

(** [(df["timestamp"].astype("int64") // 1_000_000).tolist()] *)
Definition st_timestamp_ms (r : nat) : St (list Z) :=
  df ⇐ deref r;
  st_ret ((λ row, astype_int64 (timestamp row) `div` 1000000) <$> df).

(** [df[col].tolist()] *)
Definition st_tolist (col : string) (r : nat) : St (list Value) :=
  df ⇐ deref r; st_lift (tolist col df).

(** [dataframe_to_apex_series], lines 161-178, on a reference. *)
Definition dataframe_to_apex_series (df_data : nat)
    (value_column series_name : string) : St Series :=
  e ⇐ st_empty df_data;
  if e : bool then st_ret {| name := series_name; data := [] |}
  else
    df_metric ⇐ st_dropna ["timestamp"%string; value_column] df_data;
    e ⇐ st_empty df_metric;
    if e : bool then st_ret {| name := series_name; data := [] |}
    else
      timestamp_ms ⇐ st_timestamp_ms df_metric;
      values ⇐ st_tolist value_column df_metric;
      points ⇐ st_lift (for_each add_point (zip timestamp_ms values) []);
      st_ret {| name := series_name; data := points |}.

End Frames.

(** ** Notions used by the statements *)

(** The field gives a speed. *)
Definition gives_speed (f : FieldData) : bool :=
  bool_decide (field_name f = "speed"%string) && negb (is_none (field_value f)).

(** The last value given to the field [speed] of a record message, [PNone]
    when the message gives none. *)
Definition raw_speed (record : Message) : Value :=
  match last (List.filter gives_speed record) with
  | Some f => field_value f
  | None => PNone
  end.

(** [tail] ends [s], letter case set aside. *)
Definition suffix_ci (tail s : string) : Prop :=
  ∃ pre post : list ascii,
    chars s = pre ++ post
    ∧ Forall2 (λ a b, lower_char a = lower_char b) post (chars tail).

(** The line carries a timestamp and a value in column [col]. *)
Definition carries (col : string) (r : Row) : bool :=
  complete ["timestamp"%string; col] r.

(** The chart point of a line. *)
Definition point_of (col : string) (r : Row) : Result (Z * float) :=
  match column col r with
  | Some v => f ← to_float v; Ok (astype_int64 (timestamp r) `div` 1000000, f)
  | None => Raise KeyError
  end.

(** A cell that holds a number or nothing. *)
Definition is_number (v : Value) : bool :=
  match v with PNone | PInt _ | PFloat _ => true | _ => false end.

(** Non-decreasing by timestamp. *)
Definition timestamps_sorted (df : DataFrame) : Prop :=
  Sorted Z.le ((λ r, astype_int64 (timestamp r)) <$> df).


(** The series, when it has points. *)
Definition if_has_points (s : Series) : list Series :=
  match data s with [] => [] | _ :: _ => [s] end.

Section Notions.
Context `{Collaborators}.

(** The rows an extractor hands to [sort_values], in extraction order. *)
Definition fit_extracted (file_bytes : list Byte.byte) : Result DataFrame :=
  records ← fit_get_messages file_bytes;
  rows ← for_each fit_record records [];
  dropna ["timestamp"%string]
    ((λ r, set_timestamp (of_option_datetime (to_datetime (timestamp r))) r)
       <$> rows).

Definition tcx_extracted (file_bytes : list Byte.byte) : Result DataFrame :=
  root ← xml_fromstring file_bytes;
  trackpoints ← xpath_all root ("tcx", "Trackpoint")%string
                  (normalize_tcx_nsmap root);
  rows ← for_each (tcx_trackpoint (normalize_tcx_nsmap root)) trackpoints [];
  dropna ["timestamp"%string] rows.

(** A row of the TCX extractor, made from the trackpoint [tp]. *)
Definition tcx_row_of (nsmap : gmap string string) (tp : Element) (r : Row)
    : Prop :=
  ∃ (time_text : string) (t : Z) (hr_text : option string) (hr : option Z),
    get_first_xpath_text tp [("tcx", "Time")]%string nsmap = Ok (Some time_text)
    ∧ to_datetime (PStr time_text) = Some t
    ∧ get_first_xpath_text tp
        [("tcx", "HeartRateBpm"); ("tcx", "Value")]%string nsmap = Ok hr_text
    ∧ safe_int hr_text = Ok hr
    ∧ r = {| timestamp := PDatetime t; hr_bpm := of_option_int hr;
             power_w := PNone; speed_kmh := PNone |}.

(** The decoder finds no record message, or no trackpoint, in the file. *)
Definition decodes_to_nothing (f : UploadFile) : Prop :=
  (endswith (lower (filename_or_file f)) ".fit" = true
   ∧ fit_get_messages (content f) = Ok [])
  ∨ (endswith (lower (filename_or_file f)) ".tcx" = true
     ∧ ∃ root, xml_fromstring (content f) = Ok root
         ∧ xpath_all root ("tcx", "Trackpoint")%string (normalize_tcx_nsmap root)
           = Ok []).

(** The decoder raises [e] on the file. *)
Definition decoder_raises (f : UploadFile) (e : Exception) : Prop :=
  (endswith (lower (filename_or_file f)) ".fit" = true
   ∧ fit_get_messages (content f) = Raise e)
  ∨ (endswith (lower (filename_or_file f)) ".tcx" = true
     ∧ xml_fromstring (content f) = Raise e).

(** What one file adds to the collection of [metric]. *)
Definition contribution (metric : string) (f : UploadFile) : list Series :=
  match extract_dataframe_from_file (filename_or_file f) (content f) with
  | Ok df =>
      if empty df then []
      else match dataframe_to_apex_series df metric (filename_or_file f) with
           | Ok s => if_has_points s
           | Raise _ => []
           end
  | Raise _ => []
  end.

End Notions.

(** ** Notions used by the further statements *)

(** The last value given to the field [name] of a record message, [PNone]
    when the message has no such field. *)
Definition last_value (name : string) (record : Message) : Value :=
  match last (List.filter (λ f, bool_decide (field_name f = name)) record) with
  | Some f => field_value f
  | None => PNone
  end.

(** The key under which [normalize_tcx_nsmap] files a declaration. *)
Definition filed_under (key : option string) : string :=
  match key with None => "tcx" | Some key => key end.

(** The URI that the declarations [raw] give to [prefix]: the last
    non-empty one filed under it. *)
Definition declared_uri (prefix : string) (raw : list (option string * string))
    : option string :=
  snd <$> last (List.filter
                  (λ d, bool_decide (filed_under d.1 = prefix)
                        && negb (bool_decide (d.2 = ""%string))) raw).

(** The row has a timestamp, lines 53-54. *)
Definition has_timestamp (r : Row) : bool := negb (is_none (timestamp r)).

(** The line has a timestamp that is not [NaT]. *)
Definition valid_timestamp (r : Row) : bool := negb (isna (timestamp r)).

(** The text denotes an infinity. *)
Definition denotes_infinity (s : string) : Prop :=
  ∃ sign, float_of_string (strip s) = Ok (S754_infinity sign).

Section FurtherNotions.
Context `{Collaborators}.

(** The row with its timestamp converted, line 60. *)
Definition convert_timestamp (r : Row) : Row :=
  set_timestamp (of_option_datetime (to_datetime (timestamp r))) r.

(** The file can be extracted and, when it has lines, projected on each
    supported metric. *)
Definition file_ok (f : UploadFile) : Prop :=
  ∃ df, extract_dataframe_from_file (filename_or_file f) (content f) = Ok df
    ∧ (empty df = true
       ∨ ∀ metric, metric ∈ SUPPORTED_METRICS →
           ∃ a, dataframe_to_apex_series df metric (filename_or_file f) = Ok a).

End FurtherNotions.

(** ** The sort behind [sort_values]

    [df.sort_values("timestamp")] is called without [kind], so pandas asks
    NumPy for [argsort(kind="quicksort")] on the timestamps. NumPy's routine
    for that kind ([aquicksort] of [npysort/quicksort]) is an introsort on
    the array of positions: a segment of more than sixteen entries is split
    around the median of its first, middle and last entry and the larger part
    is put on a stack; a segment of at most sixteen entries is sorted by
    insertion; a segment taken from the stack after more splits than twice
    the binary logarithm of the length is sorted by [aheapsort].

    The routine permutes positions and compares the keys found there. Here
    it permutes the entries themselves, each read through [key]; for argsort
    an entry is a key with its position. A segment is a list, its [pl] is
    position 0 and its [pr] the last position. *)

Module Numpy.
Section Sort.
Context {A : Type} (key : A → Z).

(** [Tag::less] *)
Definition less (x y : A) : bool := key x <? key y.

(** [less(v[a[i]], v[a[j]])] *)
Definition less_at (a : list A) (i j : nat) : bool :=
  match a !! i, a !! j with
  | Some x, Some y => less x y
  | _, _ => false
  end.

(** [INTP_SWAP(a[i], a[j])] *)
Definition swap (a : list A) (i j : nat) : list A :=
  match a !! i, a !! j with
  | Some x, Some y => <[i := y]> (<[j := x]> a)
  | _, _ => a
  end.

(** The inner loop of the insertion sort, for the entry [vi] taken from
    [pj]: as long as [pj > pl] and [vi] is less than the entry before [pj],
    that entry moves to [pj] and [pj] goes down by one; then [vi] is put at
    [pj]. *)
Fixpoint shift (a : list A) (vi : A) (pj : nat) : list A :=
  match pj with
  | O => <[O := vi]> a
  | S pk =>
      match a !! pk with
      | Some y => if less vi y then shift (<[pj := y]> a) vi pk
                  else <[pj := vi]> a
      | None => <[pj := vi]> a
      end
  end.

(** [for (pi = pl + 1; pi <= pr; ++pi)] *)
Definition insertion_sort (a : list A) : list A :=
  foldl (λ a pi, match a !! pi with Some vi => shift a vi pi | None => a end)
    a (seq 1 (length a - 1)).

(** [aheapsort] counts its entries from 1: [a = tosort - 1]. *)
Definition get1 (a : list A) (k : nat) : option A :=
  match k with O => None | S k' => a !! k' end.

Definition set1 (a : list A) (k : nat) (x : A) : list A :=
  match k with O => a | S k' => <[k' := x]> a end.

Definition less1 (a : list A) (j k : nat) : bool :=
  match get1 a j, get1 a k with
  | Some x, Some y => less x y
  | _, _ => false
  end.

(** The inner loop of both phases of [aheapsort], which lets [tmp] sink from
    [i] within [a[1..n]]:
    [for (; j <= n;) { if (j < n && less(a[j], a[j+1])) j += 1;
       if (less(tmp, a[j])) { a[i] = a[j]; i = j; j += j; } else break; }
     a[i] = tmp]. *)
Fixpoint sift (fuel : nat) (a : list A) (tmp : A) (i j n : nat) : list A :=
  match fuel with
  | O => set1 a i tmp
  | S fuel =>
      if (j <=? n)%nat then
        let j := if (j <? n)%nat && less1 a j (S j) then S j else j in
        match get1 a j with
        | Some c => if less tmp c then sift fuel (set1 a i c) tmp j (j + j) n
                    else set1 a i tmp
        | None => set1 a i tmp
        end
      else set1 a i tmp
  end.

(** [for (l = n >> 1; l > 0; --l) { tmp = a[l]; ... }] *)
Definition heapify (a : list A) : list A :=
  let n := length a in
  foldl (λ a l, match get1 a l with
                | Some tmp => sift n a tmp l (l + l) n
                | None => a
                end)
    a (reverse (seq 1 (Nat.div2 n))).

(** [for (; n > 1;) { tmp = a[n]; a[n] = a[1]; n -= 1; ... }] *)
Definition sort_down (a : list A) : list A :=
  foldl (λ a n, match get1 a n, get1 a 1 with
                | Some tmp, Some top => sift n (set1 a n top) tmp 1 2 (n - 1)
                | _, _ => a
                end)
    a (reverse (seq 2 (length a - 1))).

Definition heapsort (a : list A) : list A := sort_down (heapify a).

(** [do ++pi; while] the entry at [pi] is less than [vp]. *)
Fixpoint scan_up (fuel : nat) (a : list A) (vp : A) (pi : nat) : nat :=
  match fuel with
  | O => S pi
  | S fuel =>
      match a !! S pi with
      | Some x => if less x vp then scan_up fuel a vp (S pi) else S pi
      | None => S pi
      end
  end.

(** [do --pj; while] [vp] is less than the entry at [pj]. *)
Fixpoint scan_down (a : list A) (vp : A) (pj : nat) : nat :=
  match pj with
  | O => O
  | S pj' =>
      match a !! pj' with
      | Some x => if less vp x then scan_down a vp pj' else pj'
      | None => pj'
      end
  end.

(** [for (;;) { scan up; scan down; if (pi >= pj) break;
      exchange the entries at pi and pj; }] *)
Fixpoint hoare (fuel : nat) (a : list A) (vp : A) (pi pj : nat)
    : nat * list A :=
  match fuel with
  | O => (pi, a)
  | S fuel =>
      let pi := scan_up (length a) a vp pi in
      let pj := scan_down a vp pj in
      if (pj <=? pi)%nat then (pi, a) else hoare fuel (swap a pi pj) vp pi pj
  end.

(** [if (less(v[a[i]], v[a[j]])) INTP_SWAP(a[i], a[j])] *)
Definition cswap (a : list A) (i j : nat) : list A :=
  if less_at a i j then swap a i j else a.

(** The three exchanges that put the median of [a[pl]], [a[pm]] and [a[pr]]
    at [pm]. *)
Definition median_of_three (a : list A) (pm pr : nat) : list A :=
  cswap (cswap (cswap a pm 0) pr pm) pm 0.

(** The quicksort partition: the position of the pivot, and the segment
    with the pivot at that position. *)
Definition partition (a : list A) : nat * list A :=
  let pr := (length a - 1)%nat in
  let pm := Nat.div2 pr in
  let a := median_of_three a pm pr in
  match a !! pm with
  | Some vp =>
      let a := swap a pm (pr - 1) in
      let '(pi, a) := hoare (length a) a vp 0 (pr - 1) in
      (pi, swap a pi (pr - 1))
  | None => (O, a)
  end.

(** The longest segment that is left to the insertion sort. *)
Definition small : nat := 16.

(** The sort of one segment. [check] tells whether the segment comes from
    the stack, where [cdepth < 0] is tested; the smaller part of a split is
    carried on without that test. Both parts have the depth [cdepth - 1]. A
    part is shorter than its segment, so [fuel], the length of the array,
    is never used up. *)
Fixpoint introsort (fuel : nat) (check : bool) (cdepth : Z) (a : list A)
    : list A :=
  match fuel with
  | O => a
  | S fuel =>
      if check && (cdepth <? 0) then heapsort a
      else if (small <? length a)%nat then
        let '(pi, a) := partition a in
        let left := take pi a in
        let right := drop (S pi) a in
        match a !! pi with
        | Some p =>
            if (length left <? length right)%nat
            then introsort fuel false (cdepth - 1) left
                 ++ p :: introsort fuel true (cdepth - 1) right
            else introsort fuel true (cdepth - 1) left
                 ++ p :: introsort fuel false (cdepth - 1) right
        | None => a
        end
      else insertion_sort a
  end.

(** [cdepth = npy_get_msb(num) * 2] *)
Definition quicksort (a : list A) : list A :=
  introsort (length a) true (2 * Z.log2 (Z.of_nat (length a))) a.

(** The order of the keys. *)
Definition key_le (x y : A) : Prop := key x ≤ key y.




End Sort.

(** [np.argsort(keys, kind="quicksort")] *)
Definition argsort (keys : list Z) : list nat :=
  snd <$> quicksort fst (zip keys (seq 0 (length keys))).

End Numpy.

(** ** Stand-in collaborators

    Small executable decoders, used to run the program on concrete batches.
    A stand-in FIT payload is the byte [0x0e] followed by four bytes per
    record message (seconds, heart rate, power, speed in m/s; [0xff] for a
    field without value). A stand-in TCX payload is the byte [0x3c] followed
    by two bytes per trackpoint (seconds, heart rate). Both decoders raise on
    any other payload, the empty one included, as [FitFile] and
    [etree.fromstring] do. *)

Module Sample.

Definition byte_value (b : Byte.byte) : option Z :=
  let n := Z.of_N (Byte.to_N b) in
  if n =? 255 then None else Some n.

Definition fit_message (t hr pw sp : Byte.byte) : Message :=
  [ {| field_name := "timestamp";
       field_value := of_option_datetime ((λ s, s * 10 ^ 9) <$> byte_value t) |};
    {| field_name := "heart_rate"; field_value := of_option_int (byte_value hr) |};
    {| field_name := "power"; field_value := of_option_int (byte_value pw) |};
    {| field_name := "cadence"; field_value := PInt 80 |};
    {| field_name := "speed";
       field_value := match byte_value sp with
                      | Some v => PFloat (binary_normalize prec emax v 0 false)
                      | None => PNone
                      end |} ]%string.

Fixpoint fit_messages (payload : list Byte.byte) : Result (list Message) :=
  match payload with
  | [] => Ok []
  | t :: hr :: pw :: sp :: rest =>
      ms ← fit_messages rest; Ok (fit_message t hr pw sp :: ms)
  | _ => Raise FitParseError
  end.

Definition decode_fit (payload : list Byte.byte) : Result (list Message) :=
  match payload with
  | x0e :: body => fit_messages body
  | _ => Raise FitParseError
  end.

Definition leaf (tag : string) (text : string) : Element :=
  Elem [] (Some TCX_V2) tag (Some text) [].

Definition heart_rate_text (hr : Z) : string :=
  if hr =? 254 then "inf"
  else if hr =? 253 then " 72.9 "
  else if hr =? 252 then "n/a"
  else pretty hr.

Definition trackpoint (t hr : Byte.byte) : Element :=
  Elem [] (Some TCX_V2) "Trackpoint" None
    (match byte_value t with
     | Some s => [leaf "Time" (pretty s)]
     | None => []
     end ++
     match byte_value hr with
     | Some v =>
         [Elem [] (Some TCX_V2) "HeartRateBpm" None
            [leaf "Value" (heart_rate_text v)]]
     | None => []
     end).

Fixpoint trackpoints (payload : list Byte.byte) : Result (list Element) :=
  match payload with
  | [] => Ok []
  | t :: hr :: rest => tps ← trackpoints rest; Ok (trackpoint t hr :: tps)
  | _ => Raise XMLSyntaxError
  end.

Definition decode_xml (payload : list Byte.byte) : Result Element :=
  match payload with
  | x3c :: body =>
      tps ← trackpoints body;
      Ok (Elem [(None, TCX_V2)] (Some TCX_V2) "TrainingCenterDatabase" None
            [Elem [] (Some TCX_V2) "Track" None tps])
  | _ => Raise XMLSyntaxError
  end.

(** Datetimes are kept, integers are nanoseconds, a text of digits is a
    number of seconds, anything else is [NaT]. *)
Definition parse_datetime (v : Value) : option Z :=
  match v with
  | PDatetime ns => Some ns
  | PInt n => Some n
  | PStr s =>
      match chars s with
      | [] => None
      | l => if forallb is_digit l then Some (digits_value l * 10 ^ 9) else None
      end
  | _ => None
  end.

(** Insertion of a key with its position into a sorted list; [before k k']
    tells whether the new key goes in front of [k']. *)
Fixpoint insert_key (before : Z → Z → bool) (x : Z * nat) (l : list (Z * nat))
    : list (Z * nat) :=
  match l with
  | [] => [x]
  | y :: l' => if before x.1 y.1 then x :: l else y :: insert_key before x l'
  end.

(** The order of the keys, on keys paired with their positions. *)
Definition key_le (a b : Z * nat) : Prop := a.1 ≤ b.1.

Definition argsort_by (before : Z → Z → bool) (keys : list Z) : list nat :=
  snd <$> foldr (insert_key before) [] (zip keys (seq 0 (length keys))).

(** A stable argsort: equal keys keep their order. *)
Definition argsort_stable : list Z → list nat := argsort_by Z.leb.

Definition collaborators : Collaborators :=
  {| fit_get_messages := decode_fit;
     xml_fromstring := decode_xml;
     to_datetime := parse_datetime;
     argsort := argsort_stable |}.


End Sample.

(** ** Two payloads for the stand-in decoders *)

(** A FIT file with one record message at second 5: heart rate 150, no
    power, 5 m/s. *)
Definition one_record : list Byte.byte := [x0e; x05; x96; xff; x05].

(** A TCX file with trackpoints at seconds 5 and 3, heart rates 140 and
    72.9. *)
Definition two_trackpoints : list Byte.byte := [x3c; x05; x8c; x03; xfd].


(** ** Facts about the builtins *)

Lemma bind_Ok {A B} (m : Result A) (k : A → Result B) (b : B) :
  m ≫= k = Ok b ↔ ∃ a, m = Ok a ∧ k a = Ok b.
Proof.
  destruct m as [a|e]; simpl; split.
  - eauto.
  - by intros (? & [= <-] & ?).
  - done.
  - by intros (? & [=] & ?).
Qed.

Lemma bind_Raise {A B} (m : Result A) (k : A → Result B) (e : Exception) :
  m ≫= k = Raise e ↔ m = Raise e ∨ ∃ a, m = Ok a ∧ k a = Raise e.
Proof.
  destruct m as [a|e']; simpl; split.
  - eauto.
  - by intros [[=]|(? & [= <-] & ?)].
  - intros [= ->]. by left.
  - by intros [[= ->]|(? & [=] & ?)].
Qed.

Lemma for_each_app {A S} (body : S → A → Result S) (xs ys : list A) (acc : S) :
  for_each body (xs ++ ys) acc = for_each body xs acc ≫= for_each body ys.
Proof.
  revert acc. induction xs as [|x xs IH]; intros acc; simpl; [done|].
  destruct (body acc x); simpl; auto.
Qed.

(** A loop whose body leaves the accumulator alone on [x] skips [x]. *)
Lemma for_each_skip {A S} (body : S → A → Result S) (xs ys : list A) (x : A)
    (acc : S) :
  (∀ s, body s x = Ok s) →
  for_each body (xs ++ x :: ys) acc = for_each body (xs ++ ys) acc.
Proof.
  intros Hx. rewrite !for_each_app.
  destruct (for_each body xs acc) as [s|e]; simpl; [|done].
  by rewrite Hx.
Qed.

(** A loop whose body raises on [x] never completes. *)
Lemma for_each_raises {A S} (body : S → A → Result S) (xs ys : list A) (x : A)
    (acc : S) :
  (∀ s, ∃ e, body s x = Raise e) →
  ∃ e, for_each body (xs ++ x :: ys) acc = Raise e.
Proof.
  intros Hx. rewrite for_each_app.
  destruct (for_each body xs acc) as [s|e]; simpl; [|by eauto].
  destruct (Hx s) as [e ->]. simpl. eauto.
Qed.

Lemma chars_of_chars (l : list ascii) : chars (of_chars l) = l.
Proof. apply list_ascii_of_string_of_list_ascii. Qed.

Lemma of_chars_chars (s : string) : of_chars (chars s) = s.
Proof. apply string_of_list_ascii_of_string. Qed.

Lemma chars_lower (s : string) : chars (lower s) = lower_char <$> chars s.
Proof. apply chars_of_chars. Qed.

Lemma try_except_Ok {A} (body handler : Result A) caught a :
  body = Ok a → try_except body caught handler = Ok a.
Proof. by intros ->. Qed.

(** ** The safe scalar parsers *)

Lemma safe_int_None : safe_int None = Ok None.
Proof. done. Qed.

Lemma safe_int_blank (s : string) :
  strip s = ""%string → safe_int (Some s) = Ok None.
Proof. intros Hs. unfold safe_int. by rewrite Hs. Qed.

Lemma safe_int_malformed (s : string) :
  float_of_string (strip s) = Raise ValueError → safe_int (Some s) = Ok None.
Proof.
  intros Hs. unfold safe_int. case_bool_decide; [done|]. by rewrite Hs.
Qed.

Lemma safe_int_truncates (s : string) (f : float) (n : Z) :
  strip s ≠ ""%string →
  float_of_string (strip s) = Ok f → int_of_float f = Ok n →
  safe_int (Some s) = Ok (Some n).
Proof.
  intros Hne Hf Hn. unfold safe_int. case_bool_decide; [done|].
  rewrite Hf. simpl. by rewrite Hn.
Qed.

Lemma float_of_string_raises (s : string) (e : Exception) :
  float_of_string s = Raise e → e = ValueError.
Proof.
  unfold float_of_string.
  destruct (drop_underscores _ _) as [l|]; [|congruence].
  destruct (parse_sign l) as [neg r].
  destruct (parse_decimal r) as [[m x]|]; [done|].
  destruct (parse_inf_or_nan l); congruence.
Qed.

(** [safe_float] returns on every input. *)
Lemma safe_float_total (v : option string) : ∃ r, safe_float v = Ok r.
Proof.
  destruct v as [s|]; simpl; [|eauto].
  case_bool_decide; [eauto|].
  destruct (float_of_string (strip s)) as [f|e] eqn:Hf; simpl; [eauto|].
  apply float_of_string_raises in Hf as ->. simpl. eauto.
Qed.

(** [safe_int] returns unless the text denotes an infinity; then the
    [OverflowError] of [int] passes the handler. *)
Lemma safe_int_outcome (v : option string) :
  (∃ r, safe_int v = Ok r)
  ∨ (safe_int v = Raise OverflowError
     ∧ ∃ s sign, v = Some s
         ∧ float_of_string (strip s) = Ok (S754_infinity sign)).
Proof.
  destruct v as [s|]; simpl; [|eauto].
  case_bool_decide; [eauto|].
  destruct (float_of_string (strip s)) as [f|e] eqn:Hf; simpl.
  - destruct f as [sg|sg| |sg m x]; simpl; eauto 10.
  - apply float_of_string_raises in Hf as ->. simpl. eauto.
Qed.

(** C2. [safe_int] was meant never to raise: its handler catches
    [ValueError] and [TypeError]. On a text that denotes an infinity, such as
    [inf] or [1e999], [int(float(...))] raises [OverflowError], which the
    handler does not catch; [safe_float] returns on the same texts. A
    heart-rate value of that form makes [parse_tcx_bytes] raise. *)
Theorem safe_int_overflow_escapes :
  safe_int (Some "inf"%string) = Raise OverflowError
  ∧ safe_int (Some " -Infinity "%string) = Raise OverflowError
  ∧ safe_int (Some "1e999"%string) = Raise OverflowError
  ∧ safe_float (Some "inf"%string) = Ok (Some (S754_infinity false))
  ∧ safe_int (Some "72.9"%string) = Ok (Some 72)
  ∧ safe_int (Some "-72.9"%string) = Ok (Some (-72))
  ∧ safe_int (Some "7x"%string) = Ok None
  ∧ safe_int (Some "  "%string) = Ok None
  ∧ @parse_tcx_bytes Sample.collaborators [x3c; x05; xfe] = Raise OverflowError.
Proof. repeat split; vm_compute; reflexivity. Qed.

(** ** Format selection *)

Lemma lower_char_idemp (c : ascii) : lower_char (lower_char c) = lower_char c.
Proof. by destruct c as [[] [] [] [] [] [] [] []]. Qed.

(** For a lower-case [tail], the test of app.py is the suffix match that
    sets letter case aside. *)
Lemma endswith_lower_suffix_ci (tail s : string) :
  lower_char <$> chars tail = chars tail →
  endswith (lower s) tail = true ↔ suffix_ci tail s.
Proof.
  intros Htail. unfold endswith, suffix_ci.
  rewrite bool_decide_eq_true, chars_lower, length_fmap. split.
  - intros Hdrop. rewrite <- fmap_drop in Hdrop.
    exists (take (length (chars s) - length (chars tail))%nat (chars s)),
           (drop (length (chars s) - length (chars tail))%nat (chars s)).
    split; [by rewrite take_drop|].
    set (post := drop _ _) in *. rewrite <- Hdrop.
    apply Forall2_fmap_r, Forall_Forall2_diag.
    apply Forall_forall. intros c _. symmetry. apply lower_char_idemp.
  - intros (pre & post & Hs & Hpost). rewrite Hs.
    assert (lower_char <$> post = chars tail) as Heq.
    { rewrite <- Htail. generalize dependent (chars tail). clear.
      intros l _ Hpost. induction Hpost as [|a b post l Hab _ IH]; [done|].
      rewrite !fmap_cons. congruence. }
    assert (length post = length (chars tail)) as Hlen
      by (by rewrite <- Heq, length_fmap).
    rewrite length_app, <- Hlen, fmap_app.
    replace (length pre + length post - length post)%nat
      with (length (lower_char <$> pre)) by (rewrite length_fmap; lia).
    by rewrite drop_app_length.
Qed.

Lemma endswith_fit_not_tcx (s : string) :
  endswith s ".fit" = true → endswith s ".tcx" = false.
Proof.
  unfold endswith. rewrite bool_decide_eq_true, bool_decide_eq_false.
  simpl. congruence.
Qed.

Section Selection.
Context `{Collaborators}.

Lemma extract_fit (filename : string) (file_bytes : list Byte.byte) :
  endswith (lower filename) ".fit" = true →
  extract_dataframe_from_file filename file_bytes = parse_fit_bytes file_bytes.
Proof. intros Hfit. unfold extract_dataframe_from_file. by rewrite Hfit. Qed.

Lemma extract_tcx (filename : string) (file_bytes : list Byte.byte) :
  endswith (lower filename) ".tcx" = true →
  extract_dataframe_from_file filename file_bytes = parse_tcx_bytes file_bytes.
Proof.
  intros Htcx. unfold extract_dataframe_from_file.
  destruct (endswith (lower filename) ".fit") eqn:Hfit; [|by rewrite Htcx].
  apply endswith_fit_not_tcx in Hfit. congruence.
Qed.

Lemma extract_unsupported (filename : string) (file_bytes : list Byte.byte) :
  endswith (lower filename) ".fit" = false →
  endswith (lower filename) ".tcx" = false →
  extract_dataframe_from_file filename file_bytes = Ok [].
Proof.
  intros Hfit Htcx. unfold extract_dataframe_from_file. by rewrite Hfit, Htcx.
Qed.

(** A file with an empty DataFrame leaves the collections as they are. *)
Lemma add_file_empty (f : UploadFile) (s : gmap string (list Series)) :
  extract_dataframe_from_file (filename_or_file f) (content f) = Ok [] →
  add_file s f = Ok s.
Proof. intros Hf. unfold add_file. by rewrite Hf. Qed.

Lemma add_file_raise (f : UploadFile) (s : gmap string (list Series)) e :
  extract_dataframe_from_file (filename_or_file f) (content f) = Raise e →
  add_file s f = Raise e.
Proof. intros Hf. unfold add_file. by rewrite Hf. Qed.

Lemma parse_activity_files_skip (f : UploadFile) (pre post : list UploadFile) :
  extract_dataframe_from_file (filename_or_file f) (content f) = Ok [] →
  parse_activity_files (pre ++ f :: post) = parse_activity_files (pre ++ post).
Proof.
  intros Hf. unfold parse_activity_files.
  rewrite for_each_skip; [done|]. intros s. by apply add_file_empty.
Qed.

Lemma parse_activity_files_abort (f : UploadFile) (pre post : list UploadFile) e :
  extract_dataframe_from_file (filename_or_file f) (content f) = Raise e →
  ∃ e', parse_activity_files (pre ++ f :: post) = Raise e'.
Proof.
  intros Hf. unfold parse_activity_files.
  destruct (for_each_raises add_file pre post f init_series_response) as [e' ->].
  - intros s. exists e. by apply add_file_raise.
  - by exists e'.
Qed.

Lemma contribution_empty (metric : string) (f : UploadFile) :
  extract_dataframe_from_file (filename_or_file f) (content f) = Ok [] →
  contribution metric f = [].
Proof. intros Hf. unfold contribution. by rewrite Hf. Qed.

(** C7. Format selection is a suffix match that sets letter case aside: a
    name ending in [.fit] is handed to the FIT extractor, a name ending in
    [.tcx] to the TCX extractor, and any other name gives the empty
    DataFrame; such a file is skipped and the files before and after it are
    processed as if it were not in the batch. *)
Theorem format_selected_by_suffix (name : string) (file_bytes : list Byte.byte) :
  (suffix_ci ".fit" name →
     extract_dataframe_from_file name file_bytes = parse_fit_bytes file_bytes)
  ∧ (suffix_ci ".tcx" name →
     extract_dataframe_from_file name file_bytes = parse_tcx_bytes file_bytes)
  ∧ (¬ suffix_ci ".fit" name → ¬ suffix_ci ".tcx" name →
     extract_dataframe_from_file name file_bytes = Ok []
     ∧ ∀ (f : UploadFile) (pre post : list UploadFile),
         filename_or_file f = name → content f = file_bytes →
         parse_activity_files (pre ++ f :: post)
         = parse_activity_files (pre ++ post)).
Proof.
  split; [|split].
  - intros Hfit. apply extract_fit. by apply endswith_lower_suffix_ci.
  - intros Htcx. apply extract_tcx. by apply endswith_lower_suffix_ci.
  - intros Hfit Htcx.
    assert (extract_dataframe_from_file name file_bytes = Ok []) as Hempty.
    { apply extract_unsupported.
      - apply not_true_is_false. by rewrite endswith_lower_suffix_ci.
      - apply not_true_is_false. by rewrite endswith_lower_suffix_ci. }
    split; [done|]. intros f pre post <- <-.
    by apply parse_activity_files_skip.
Qed.

End Selection.

(** ** Corrupt and empty payloads *)

Section Corrupt.
Context `{Collaborators}.

Lemma parse_fit_bytes_no_messages (file_bytes : list Byte.byte) :
  fit_get_messages file_bytes = Ok [] → parse_fit_bytes file_bytes = Ok [].
Proof. intros Hm. unfold parse_fit_bytes. by rewrite Hm. Qed.

Lemma parse_tcx_bytes_no_trackpoints (file_bytes : list Byte.byte) root :
  xml_fromstring file_bytes = Ok root →
  xpath_all root ("tcx", "Trackpoint")%string (normalize_tcx_nsmap root) = Ok [] →
  parse_tcx_bytes file_bytes = Ok [].
Proof.
  intros Hroot Htp. unfold parse_tcx_bytes. rewrite Hroot. simpl.
  by rewrite Htp.
Qed.

Lemma extract_decodes_to_nothing (f : UploadFile) :
  decodes_to_nothing f →
  extract_dataframe_from_file (filename_or_file f) (content f) = Ok [].
Proof.
  intros [[Hfit Hm]|[Htcx (root & Hroot & Htp)]].
  - rewrite extract_fit by done. by apply parse_fit_bytes_no_messages.
  - rewrite extract_tcx by done. by eapply parse_tcx_bytes_no_trackpoints.
Qed.

Lemma extract_decoder_raises (f : UploadFile) (e : Exception) :
  decoder_raises f e →
  extract_dataframe_from_file (filename_or_file f) (content f) = Raise e.
Proof.
  intros [[Hfit Hm]|[Htcx Hroot]].
  - rewrite extract_fit by done. unfold parse_fit_bytes. by rewrite Hm.
  - rewrite extract_tcx by done. unfold parse_tcx_bytes. by rewrite Hroot.
Qed.

(** C1, as the code has it. When the decoder finds no record message, or no
    trackpoint, in a [.fit] or [.tcx] file, the file gives the empty
    DataFrame, adds nothing to any metric, and the batch is processed as if
    the file were not in it. When the decoder raises, nothing catches the
    exception: the extractor raises it and the batch has no result. *)
Theorem empty_decode_skipped_decoder_error_raised (f : UploadFile)
    (pre post : list UploadFile) :
  (decodes_to_nothing f →
     extract_dataframe_from_file (filename_or_file f) (content f) = Ok []
     ∧ (∀ metric, contribution metric f = [])
     ∧ parse_activity_files (pre ++ f :: post)
       = parse_activity_files (pre ++ post))
  ∧ (∀ e, decoder_raises f e →
     extract_dataframe_from_file (filename_or_file f) (content f) = Raise e
     ∧ ∃ e', parse_activity_files (pre ++ f :: post) = Raise e').
Proof.
  split.
  - intros Hf%extract_decodes_to_nothing. split; [done|]. split.
    + intros metric. by apply contribution_empty.
    + by apply parse_activity_files_skip.
  - intros e Hf%extract_decoder_raises. split; [done|].
    by eapply parse_activity_files_abort.
Qed.

End Corrupt.

(** C1 fails as stated: with a decoder that raises on the empty payload, the
    file [a.fit] (and likewise [a.tcx]) with no content makes the extractor
    raise, and a batch that holds it raises too, although the other file of
    the batch is readable. *)
Lemma decoder_error_aborts_batch :
  let C := Sample.collaborators in
  let a_fit := {| filename := Some "a.fit"%string; content := [] |} in
  let a_tcx := {| filename := Some "a.tcx"%string; content := [] |} in
  let good := {| filename := Some "b.fit"%string;
                 content := [x0e; x05; x96; xff; x05] |} in
  @decoder_raises C a_fit FitParseError
  ∧ @extract_dataframe_from_file C "a.fit" [] = Raise FitParseError
  ∧ @parse_activity_files C [good; a_fit] = Raise FitParseError
  ∧ @decoder_raises C a_tcx XMLSyntaxError
  ∧ @extract_dataframe_from_file C "a.tcx" [] = Raise XMLSyntaxError
  ∧ @parse_activity_files C [a_tcx; good] = Raise XMLSyntaxError
  ∧ ∃ r, @parse_activity_files C [good] = Ok r.
Proof.
  intros C a_fit a_tcx good. split; [|split; [|split; [|split]]].
  - left. split; vm_compute; reflexivity.
  - vm_compute; reflexivity.
  - vm_compute; reflexivity.
  - right. split; vm_compute; reflexivity.
  - repeat split; try (vm_compute; reflexivity).
    unfold parse_activity_files.
    destruct (for_each add_file [good] init_series_response) as [s|e] eqn:Hs.
    + eauto.
    + vm_compute in Hs. discriminate.
Qed.

(** ** The keys of the response *)

Lemma init_series_response_dom :
  dom init_series_response = list_to_set SUPPORTED_METRICS.
Proof.
  unfold init_series_response. rewrite dom_list_to_map_L.
  by rewrite <- list_fmap_compose.
Qed.

Lemma init_series_response_lookup (metric : string) :
  metric ∈ SUPPORTED_METRICS → init_series_response !! metric = Some [].
Proof.
  intros Hm. unfold SUPPORTED_METRICS in Hm.
  repeat (apply elem_of_cons in Hm as [->|Hm]; [by vm_compute|]).
  by apply elem_of_nil in Hm.
Qed.

Lemma SUPPORTED_METRICS_NoDup : NoDup SUPPORTED_METRICS.
Proof. exact (bool_decide_unpack (NoDup SUPPORTED_METRICS) I). Qed.

Lemma add_metric_Ok (df : DataFrame) (fn metric : string)
    (s s' : gmap string (list Series)) :
  add_metric df fn s metric = Ok s' →
  ∃ a, dataframe_to_apex_series df metric fn = Ok a
    ∧ ∀ m, s' !! m = if decide (m = metric)
                     then (λ l, l ++ if_has_points a) <$> s !! metric
                     else s !! m.
Proof.
  unfold add_metric, if_has_points.
  destruct (dataframe_to_apex_series df metric fn) as [a|e]; simpl; [|done].
  intros Hs'. exists a. split; [done|]. intros m.
  destruct (data a) as [|p ps].
  - injection Hs' as <-. case_decide as Hm; [subst m|done].
    destruct (s !! metric); simpl; [|done]. by rewrite app_nil_r.
  - destruct (s !! metric) as [l|] eqn:Hl; [|done]. injection Hs' as <-.
    rewrite lookup_insert. by repeat case_decide.
Qed.

Lemma add_metric_dom (df : DataFrame) (fn metric : string)
    (s s' : gmap string (list Series)) :
  add_metric df fn s metric = Ok s' → dom s' = dom s.
Proof.
  intros (a & _ & Hs')%add_metric_Ok. apply set_eq. intros m.
  rewrite !elem_of_dom, Hs'. case_decide; [subst m|done].
  by rewrite fmap_is_Some.
Qed.

Lemma for_each_add_metric_dom (df : DataFrame) (fn : string) (ms : list string)
    (s s' : gmap string (list Series)) :
  for_each (add_metric df fn) ms s = Ok s' → dom s' = dom s.
Proof.
  revert s. induction ms as [|m ms IH]; intros s; simpl.
  - by intros [= <-].
  - intros (s1 & Hs1 & Hs')%bind_Ok.
    rewrite (IH _ Hs'). by eapply add_metric_dom.
Qed.

Section Keys.
Context `{Collaborators}.

Lemma add_file_dom (f : UploadFile) (s s' : gmap string (list Series)) :
  add_file s f = Ok s' → dom s' = dom s.
Proof.
  unfold add_file. intros (df & _ & Hs')%bind_Ok.
  destruct (empty df).
  - by injection Hs' as <-.
  - by eapply for_each_add_metric_dom.
Qed.

Lemma for_each_add_file_dom (files : list UploadFile)
    (s s' : gmap string (list Series)) :
  for_each add_file files s = Ok s' → dom s' = dom s.
Proof.
  revert s. induction files as [|f files IH]; intros s; simpl.
  - by intros [= <-].
  - intros (s1 & Hs1 & Hs')%bind_Ok.
    rewrite (IH _ Hs'). by eapply add_file_dom.
Qed.

Lemma parse_activity_files_nothing_usable (files : list UploadFile) :
  Forall (λ f, extract_dataframe_from_file (filename_or_file f) (content f)
               = Ok []) files →
  parse_activity_files files = Ok {| series := init_series_response |}.
Proof.
  intros Hfiles. unfold parse_activity_files.
  assert (∀ s, for_each add_file files s = Ok s) as ->; [|done].
  induction Hfiles as [|f files Hf _ IH]; intros s; simpl; [done|].
  rewrite add_file_empty by done. apply IH.
Qed.

(** C10. Whenever a batch has a response, its mapping has exactly the keys
    [hr_bpm], [speed_kmh] and [power_w], each bound to a list. The empty
    batch, and a batch in which every file gives the empty DataFrame, have
    the response in which the three lists are empty. *)
Theorem response_has_the_three_keys :
  (∀ (files : list UploadFile) (r : Response),
     parse_activity_files files = Ok r →
     dom (series r) = {[ "hr_bpm"; "speed_kmh"; "power_w" ]}%string
     ∧ ∀ metric, metric ∈ SUPPORTED_METRICS → is_Some (series r !! metric))
  ∧ parse_activity_files [] = Ok {| series := init_series_response |}
  ∧ (∀ files : list UploadFile,
       Forall (λ f, extract_dataframe_from_file (filename_or_file f) (content f)
                    = Ok []) files →
       parse_activity_files files = Ok {| series := init_series_response |})
  ∧ ∀ metric, metric ∈ SUPPORTED_METRICS →
      init_series_response !! metric = Some [].
Proof.
  split; [|split; [done|split]].
  - intros files r. unfold parse_activity_files.
    intros (s & Hs & [= <-])%bind_Ok. simpl.
    apply for_each_add_file_dom in Hs. rewrite init_series_response_dom in Hs.
    assert (dom s = {[ "hr_bpm"; "speed_kmh"; "power_w" ]}%string) as Hdom.
    { rewrite Hs. unfold SUPPORTED_METRICS. simpl. set_solver. }
    split; [done|]. intros metric Hm. apply elem_of_dom. rewrite Hdom.
    unfold SUPPORTED_METRICS in Hm.
    repeat (apply elem_of_cons in Hm as [->|Hm]; [set_solver|]).
    by apply elem_of_nil in Hm.
  - apply parse_activity_files_nothing_usable.
  - apply init_series_response_lookup.
Qed.

End Keys.

(** ** The order of the series *)

Lemma dataframe_to_apex_series_name (df : DataFrame) (col fn : string) a :
  dataframe_to_apex_series df col fn = Ok a → name a = fn.
Proof.
  unfold dataframe_to_apex_series. destruct (empty df); [by intros [= <-]|].
  intros (dfm & _ & Ha)%bind_Ok. destruct (empty dfm); [by injection Ha as <-|].
  apply bind_Ok in Ha as (vs & _ & Ha).
  apply bind_Ok in Ha as (ps & _ & Ha). by injection Ha as <-.
Qed.

Lemma for_each_add_metric_Ok (df : DataFrame) (fn : string) (ms : list string)
    (s s' : gmap string (list Series)) :
  NoDup ms →
  for_each (add_metric df fn) ms s = Ok s' →
  ∀ m, s' !! m
       = if decide (m ∈ ms)
         then (λ l, l ++ match dataframe_to_apex_series df m fn with
                         | Ok a => if_has_points a
                         | Raise _ => []
                         end) <$> s !! m
         else s !! m.
Proof.
  intros Hnodup. revert s.
  induction Hnodup as [|m0 ms Hm0 _ IH]; intros s; simpl.
  - by intros [= <-] m.
  - intros (s1 & Hadd & Hs')%bind_Ok m.
    apply add_metric_Ok in Hadd as (a & Ha & Hs1).
    rewrite (IH _ Hs'), !Hs1.
    destruct (decide (m = m0)) as [->|Hne].
    + rewrite decide_False by done. rewrite decide_True by left.
      by rewrite Ha.
    + destruct (decide (m ∈ ms)) as [Hin|Hin].
      * rewrite decide_True by (by right). done.
      * rewrite decide_False; [done|]. by intros [?|?]%elem_of_cons.
Qed.

Section Order.
Context `{Collaborators}.

Lemma contribution_cases (metric : string) (f : UploadFile) :
  contribution metric f = []
  ∨ ∃ a, contribution metric f = [a]
      ∧ name a = filename_or_file f ∧ data a ≠ [].
Proof.
  unfold contribution.
  destruct (extract_dataframe_from_file _ _) as [df|e]; [|by left].
  destruct (empty df); [by left|].
  destruct (dataframe_to_apex_series _ _ _) as [a|e] eqn:Ha; [|by left].
  apply dataframe_to_apex_series_name in Ha. unfold if_has_points.
  destruct (data a) eqn:Hdata; [by left|]. right. exists a.
  rewrite Hdata. done.
Qed.

Lemma add_file_Ok (f : UploadFile) (s s' : gmap string (list Series)) :
  add_file s f = Ok s' →
  ∀ m, m ∈ SUPPORTED_METRICS →
    s' !! m = (λ l, l ++ contribution m f) <$> s !! m.
Proof.
  unfold add_file, contribution. intros (df & -> & Hs')%bind_Ok m Hm.
  destruct (empty df).
  - injection Hs' as <-. destruct (s !! m); simpl; [|done].
    by rewrite app_nil_r.
  - eapply for_each_add_metric_Ok in Hs' as ->.
    + by rewrite decide_True.
    + apply SUPPORTED_METRICS_NoDup.
Qed.

Lemma for_each_add_file_Ok (files : list UploadFile)
    (s s' : gmap string (list Series)) :
  for_each add_file files s = Ok s' →
  ∀ m, m ∈ SUPPORTED_METRICS →
    s' !! m = (λ l, l ++ (files ≫= contribution m)) <$> s !! m.
Proof.
  revert s. induction files as [|f files IH]; intros s; simpl.
  - intros [= <-] m _. destruct (s !! m); simpl; [|done].
    by rewrite app_nil_r.
  - intros (s1 & Hs1 & Hs')%bind_Ok m Hm.
    rewrite (IH _ Hs' m Hm), (add_file_Ok _ _ _ Hs1 m Hm).
    destruct (s !! m); simpl; [|done]. by rewrite app_assoc.
Qed.

Lemma contributions_have_points (metric : string) (files : list UploadFile) :
  Forall (λ a, data a ≠ []) (files ≫= contribution metric).
Proof.
  induction files as [|f files IH]; [constructor|].
  rewrite bind_cons. apply Forall_app. split; [|done].
  destruct (contribution_cases metric f) as [->|(a & -> & _ & Ha)];
    repeat constructor; done.
Qed.

Lemma contributions_follow_files (metric : string) (files : list UploadFile) :
  (name <$> (files ≫= contribution metric))
    `sublist_of` (filename_or_file <$> files).
Proof.
  induction files as [|f files IH]; [done|].
  rewrite bind_cons, fmap_app, fmap_cons.
  destruct (contribution_cases metric f) as [->|(a & -> & <- & _)]; simpl.
  - by apply sublist_cons.
  - by apply sublist_skip.
Qed.

(** C6. In the response of a batch, the collection of each metric is the
    sequence of what the files add, file after file in the order of
    submission: each file adds at most one series, named after the file, and
    only a series that has points is added. *)
Theorem series_follow_submission_order (files : list UploadFile) (r : Response)
    (metric : string) :
  parse_activity_files files = Ok r →
  metric ∈ SUPPORTED_METRICS →
  series r !! metric = Some (files ≫= contribution metric)
  ∧ (∀ f, contribution metric f = []
          ∨ ∃ a, contribution metric f = [a]
              ∧ name a = filename_or_file f ∧ data a ≠ [])
  ∧ Forall (λ a, data a ≠ []) (files ≫= contribution metric)
  ∧ (name <$> (files ≫= contribution metric))
      `sublist_of` (filename_or_file <$> files).
Proof.
  unfold parse_activity_files. intros (s & Hs & [= <-])%bind_Ok Hm. simpl.
  split; [|split; [|split]].
  - rewrite (for_each_add_file_Ok _ _ _ Hs metric Hm).
    by rewrite (init_series_response_lookup metric Hm).
  - apply contribution_cases.
  - apply contributions_have_points.
  - apply contributions_follow_files.
Qed.

End Order.

(** ** Conversions to float never make a NaN out of a number *)

Lemma shr_1_nonneg (mrs : shr_record) :
  0 ≤ shr_m mrs → 0 ≤ shr_m (shr_1 mrs).
Proof.
  destruct mrs as [m r s]. simpl. intros Hm.
  destruct m as [|p|p]; [done| |lia]. by destruct p.
Qed.

Lemma iter_pos_preserves {A} (P : A → Prop) (f : A → A) (p : positive) (x : A) :
  (∀ y, P y → P (f y)) → P x → P (SpecFloat.iter_pos f p x).
Proof.
  intros Hf. revert x. induction p as [p IH|p IH|]; intros x Hx; simpl; auto.
Qed.

Lemma shr_fexp_nonneg (m e : Z) (l : location) :
  0 ≤ m → 0 ≤ shr_m (shr_fexp prec emax m e l).1.
Proof.
  intros Hm. unfold shr_fexp, shr.
  assert (0 ≤ shr_m (shr_record_of_loc m l)) as Hrec by (by destruct l as [|[]]).
  destruct (_ - e) as [|p|p]; simpl; try done.
  by apply iter_pos_preserves; [apply shr_1_nonneg|].
Qed.

Lemma round_nearest_even_nonneg (m : Z) (l : location) :
  0 ≤ m → 0 ≤ round_nearest_even m l.
Proof.
  intros Hm. destruct l as [|[]]; simpl; try done; [|lia].
  destruct (Z.even m); lia.
Qed.

Lemma binary_round_aux_not_nan (sx : bool) (mx ex : Z) (lx : location) :
  0 ≤ mx → isnan (binary_round_aux prec emax sx mx ex lx) = false.
Proof.
  intros Hm. unfold binary_round_aux.
  pose proof (shr_fexp_nonneg mx ex lx Hm) as H1.
  destruct (shr_fexp prec emax mx ex lx) as [mrs' e']. simpl in H1.
  pose proof (shr_fexp_nonneg _ e' loc_Exact
                (round_nearest_even_nonneg _ (loc_of_shr_record mrs') H1)) as H2.
  destruct (shr_fexp prec emax _ e' loc_Exact) as [mrs'' e'']. simpl in H2.
  destruct (shr_m mrs'') as [|p|p]; [done| |lia].
  by destruct (e'' <=? emax - prec).
Qed.

Lemma float_of_int_not_nan (n : Z) (f : float) :
  float_of_int n = Ok f → isnan f = false.
Proof.
  unfold float_of_int, binary_normalize, binary_round.
  destruct n as [|p|p]; [by intros [= <-]| |].
  - destruct (shl_align _ _ _) as [mz ez].
    pose proof (binary_round_aux_not_nan false (Zpos mz) ez loc_Exact
                  ltac:(lia)) as Hn.
    destruct (binary_round_aux _ _ _ _ _ _); try done; by intros [= <-].
  - destruct (shl_align _ _ _) as [mz ez].
    pose proof (binary_round_aux_not_nan true (Zpos mz) ez loc_Exact
                  ltac:(lia)) as Hn.
    destruct (binary_round_aux _ _ _ _ _ _); try done; by intros [= <-].
Qed.

Lemma to_float_number_not_nan (v : Value) (f : float) :
  is_number v → isna v = false → to_float v = Ok f → isnan f = false.
Proof.
  destruct v as [|n|g|s|t]; simpl; try done.
  - intros _ _. apply float_of_int_not_nan.
  - by intros _ Hg [= <-].
Qed.

(** ** The series projector *)

Lemma tolist_carried (col : string) (df : DataFrame) :
  Forall (λ r, is_Some (column col r)) df →
  tolist col df = Ok (omap (column col) df).
Proof.
  unfold tolist. induction 1 as [|r df [v Hv] _ IH]; simpl; [done|].
  by rewrite Hv, IH.
Qed.

Lemma carries_inv (col : string) (r : Row) :
  carries col r = true →
  isna (timestamp r) = false
  ∧ ∃ v, column col r = Some v ∧ isna v = false.
Proof.
  unfold carries, complete. simpl.
  destruct (column col r) as [v|]; [|by rewrite andb_false_r].
  rewrite andb_true_r, andb_true_iff, !negb_true_iff. intros [Ht Hv]. eauto.
Qed.

Lemma isna_false_is_none (v : Value) : isna v = false → is_none v = false.
Proof. by destruct v. Qed.

Lemma for_each_cons {A S} (body : S → A → Result S) (x : A) (xs : list A)
    (acc : S) :
  for_each body (x :: xs) acc = body acc x ≫= for_each body xs.
Proof. done. Qed.

Lemma mapM_cons {A B} (f : A → Result B) (x : A) (l : list A) :
  mapM f (x :: l) = y ← f x; k ← mapM f l; Ok (y :: k).
Proof. done. Qed.

Lemma add_point_present (acc : list (Z * float)) (t : Z) (v : Value) :
  is_none v = false →
  add_point acc (t, v) = f ← to_float v; Ok (acc ++ [(t, f)]).
Proof. unfold add_point. simpl. by intros ->. Qed.

Lemma point_of_carried (col : string) (r : Row) (v : Value) :
  column col r = Some v →
  point_of col r
  = f ← to_float v; Ok (astype_int64 (timestamp r) `div` 1000000, f).
Proof. unfold point_of. by intros ->. Qed.

(** The loop over [zip(timestamp_ms, values)] makes the point of each line,
    in order, and stops at the first value that [float] refuses. *)
Lemma points_loop (col : string) (df : DataFrame) (acc : list (Z * float)) :
  Forall (λ r, carries col r = true) df →
  for_each add_point
    (zip ((λ r, astype_int64 (timestamp r) `div` 1000000) <$> df)
         (omap (column col) df)) acc
  = ps ← mapM (point_of col) df; Ok (acc ++ ps).
Proof.
  intros Hdf. revert acc.
  induction Hdf as [|r df Hr _ IH]; intros acc.
  - simpl. by rewrite app_nil_r.
  - apply carries_inv in Hr as (_ & v & Hv & Hna).
    rewrite fmap_cons, mapM_cons. cbn [omap list_omap]. rewrite Hv.
    cbn [zip_with]. rewrite for_each_cons.
    rewrite add_point_present by (by apply isna_false_is_none).
    rewrite (point_of_carried col r v Hv).
    destruct (to_float v) as [f|e]; [|done].
    change (for_each add_point
              (zip ((λ r, astype_int64 (timestamp r) `div` 1000000) <$> df)
                   (omap (column col) df))
              (acc ++ [(astype_int64 (timestamp r) `div` 1000000, f)])
            = (k ← mapM (point_of col) df;
               Ok ((astype_int64 (timestamp r) `div` 1000000, f) :: k))
              ≫= λ ps, Ok (acc ++ ps)).
    rewrite IH. destruct (mapM (point_of col) df); simpl; [|done].
    by rewrite <- app_assoc.
Qed.

Lemma ret_bind {A B} (a : A) (k : A → Result B) : Ok a ≫= k = k a.
Proof. done. Qed.

Lemma dropna_metric (col : string) (df : DataFrame) :
  is_column col = true →
  dropna ["timestamp"%string; col] df = Ok (List.filter (carries col) df).
Proof. intros Hcol. unfold dropna. simpl. by rewrite Hcol. Qed.

Lemma filter_carries (col : string) (df : DataFrame) :
  Forall (λ r, carries col r = true) (List.filter (carries col) df).
Proof.
  apply Forall_forall. by intros r [_ Hr]%list_elem_of_In%filter_In.
Qed.

Lemma dataframe_to_apex_series_eq (df : DataFrame) (col fn : string) :
  is_column col = true →
  dataframe_to_apex_series df col fn
  = points ← mapM (point_of col) (List.filter (carries col) df);
    Ok {| name := fn; data := points |}.
Proof.
  intros Hcol. unfold dataframe_to_apex_series.
  destruct df as [|r0 df0]; [done|].
  rewrite dropna_metric, ret_bind by done. unfold empty at 1.
  pose proof (filter_carries col (r0 :: df0)) as Hall.
  destruct (List.filter (carries col) (r0 :: df0)) as [|r1 dfm]; [done|].
  unfold empty. rewrite tolist_carried, ret_bind.
  - rewrite points_loop by done. by destruct (mapM _ _).
  - eapply Forall_impl; [exact Hall|]. intros r Hr.
    apply carries_inv in Hr as (_ & v & -> & _). eauto.
Qed.

Lemma mapM_Ok_Forall2 {A B} (f : A → Result B) (l : list A) (k : list B) :
  mapM f l = Ok k → Forall2 (λ x y, f x = Ok y) l k.
Proof.
  revert k. induction l as [|x l IH]; intros k; simpl.
  - intros [= <-]. constructor.
  - intros (y & Hy & Hk)%bind_Ok. apply bind_Ok in Hk as (k' & Hk' & [= <-]).
    constructor; auto.
Qed.

Lemma mapM_Ok_total {A B} (f : A → Result B) (l : list A) :
  Forall (λ x, ∃ y, f x = Ok y) l → ∃ k, mapM f l = Ok k.
Proof.
  induction 1 as [|x l [y Hy] _ [k Hk]]; simpl; [by eexists|].
  rewrite Hy. simpl. rewrite Hk. simpl. by eexists.
Qed.

Lemma supported_is_column (col : string) :
  col ∈ SUPPORTED_METRICS → is_column col = true.
Proof.
  intros Hm. unfold SUPPORTED_METRICS in Hm.
  repeat (apply elem_of_cons in Hm as [->|Hm]; [by vm_compute|]).
  by apply elem_of_nil in Hm.
Qed.

Lemma Forall2_with_left {A B} (P : A → Prop) (Q : A → B → Prop) l k :
  Forall P l → Forall2 Q l k → Forall2 (λ x y, P x ∧ Q x y) l k.
Proof.
  intros HP HQ. induction HQ as [|x y l k Hxy _ IH]; [constructor|].
  apply Forall_cons in HP as [Hx Hl]. constructor; auto.
Qed.

(** C5. For a supported metric, the projector makes one point
    [(timestamp in ms, float(value))] for each line that carries both a
    timestamp and a value of the metric, in the order of the lines, and no
    other point: a line without the value is left out. No point of a frame of
    numbers has a NaN as value, and the series is empty when no line carries
    the metric, in particular for the empty frame. *)
Theorem series_has_the_points_of_carrying_rows (df : DataFrame)
    (col fn : string) :
  col ∈ SUPPORTED_METRICS →
  dataframe_to_apex_series df col fn
  = (points ← mapM (point_of col) (List.filter (carries col) df);
     Ok {| name := fn; data := points |})
  ∧ (∀ a, dataframe_to_apex_series df col fn = Ok a →
       name a = fn
       ∧ Forall2
           (λ r p,
              isna (timestamp r) = false
              ∧ ∃ v, column col r = Some v ∧ isna v = false
                  ∧ to_float v = Ok p.2
                  ∧ p.1 = astype_int64 (timestamp r) `div` 1000000)
           (List.filter (carries col) df) (data a)
       ∧ (Forall (λ r, ∀ v, column col r = Some v → is_number v) df →
          Forall (λ p, isnan p.2 = false) (data a)))
  ∧ (List.filter (carries col) df = [] →
     dataframe_to_apex_series df col fn = Ok {| name := fn; data := [] |})
  ∧ (Forall (λ r, ∀ v, column col r = Some v → isna v = false →
                       ∃ f, to_float v = Ok f) df →
     ∃ a, dataframe_to_apex_series df col fn = Ok a).
Proof.
  intros Hcol%supported_is_column.
  pose proof (dataframe_to_apex_series_eq df col fn Hcol) as Heq.
  split; [done|]. rewrite Heq. split; [|split].
  - intros a (ps & Hps & [= <-])%bind_Ok. simpl. split; [done|].
    apply mapM_Ok_Forall2 in Hps.
    apply (Forall2_with_left _ _ _ _ (filter_carries col df)) in Hps.
    assert (Forall2
      (λ r p, isna (timestamp r) = false
              ∧ ∃ v, column col r = Some v ∧ isna v = false
                  ∧ to_float v = Ok p.2
                  ∧ p.1 = astype_int64 (timestamp r) `div` 1000000)
      (List.filter (carries col) df) ps) as Hpoints.
    { eapply Forall2_impl; [exact Hps|]. intros r p [Hr Hp].
      apply carries_inv in Hr as (Ht & v & Hv & Hna). split; [done|].
      exists v. rewrite (point_of_carried _ _ _ Hv) in Hp.
      apply bind_Ok in Hp as (f & Hf & [= <-]). done. }
    split; [done|]. intros Hnum.
    assert (Forall (λ r, ∀ v, column col r = Some v → is_number v)
              (List.filter (carries col) df)) as Hnum'.
    { apply Forall_forall. intros r [Hr _]%list_elem_of_In%filter_In.
      rewrite Forall_forall in Hnum. by apply Hnum, list_elem_of_In. }
    clear -Hpoints Hnum'.
    induction Hpoints as [|r p l k (_ & v & Hv & Hna & Hf & _) _ IH];
      [constructor|].
    apply Forall_cons in Hnum' as [Hr Hl]. constructor; [|auto].
    eapply to_float_number_not_nan; eauto.
  - by intros ->.
  - intros Hconv.
    destruct (mapM_Ok_total (point_of col) (List.filter (carries col) df))
      as [ps ->]; [|by eexists].
    apply Forall_forall. intros r [Hin Hr]%list_elem_of_In%filter_In.
    apply carries_inv in Hr as (_ & v & Hv & Hna).
    rewrite Forall_forall in Hconv.
    destruct (Hconv r (proj2 (list_elem_of_In _ _) Hin) v Hv Hna) as [f Hf].
    rewrite (point_of_carried _ _ _ Hv), Hf. by eexists.
Qed.

(** ** The FIT extractor *)

Lemma raw_speed_eq (record : Message) :
  raw_speed record
  = match last (List.filter gives_speed record) with
    | Some f => field_value f
    | None => PNone
    end.
Proof. done. Qed.

Lemma fit_field_speed (row row' : Row) (f : FieldData) :
  gives_speed f = true →
  fit_field row f = Ok row' →
  ∃ g, to_float (field_value f) = Ok g
    ∧ speed_kmh row' = PFloat (fmul g three_point_six).
Proof.
  unfold gives_speed, fit_field. intros [Hname Hval]%andb_true_iff.
  apply bool_decide_eq_true in Hname. rewrite Hname, Hval. simpl.
  intros (g & Hg & [= <-])%bind_Ok. eauto.
Qed.

Lemma fit_field_other (row row' : Row) (f : FieldData) :
  gives_speed f = false →
  fit_field row f = Ok row' → speed_kmh row' = speed_kmh row.
Proof.
  unfold gives_speed, fit_field. intros Hf.
  repeat case_bool_decide; simpl in *; try (by intros [= <-]).
  rewrite Hf. by intros [= <-].
Qed.

Lemma for_each_fit_field_speed (fields : list FieldData) (row0 row : Row) :
  for_each fit_field fields row0 = Ok row →
  match last (List.filter gives_speed fields) with
  | None => speed_kmh row = speed_kmh row0
  | Some f => ∃ g, to_float (field_value f) = Ok g
                ∧ speed_kmh row = PFloat (fmul g three_point_six)
  end.
Proof.
  revert row0. induction fields as [|f fields IH]; intros row0.
  - by intros [= <-].
  - rewrite for_each_cons. intros (row1 & Hf & Hrest)%bind_Ok.
    specialize (IH _ Hrest). simpl.
    destruct (gives_speed f) eqn:Hsp.
    + rewrite last_cons.
      destruct (last (List.filter gives_speed fields)); [done|].
      rewrite IH. by eapply fit_field_speed.
    + destruct (last (List.filter gives_speed fields)); [done|].
      rewrite IH. by eapply fit_field_other.
Qed.

Lemma raw_speed_None (record : Message) :
  raw_speed record = PNone ↔ last (List.filter gives_speed record) = None.
Proof.
  rewrite raw_speed_eq.
  destruct (last (List.filter gives_speed record)) as [f|] eqn:Hlast; [|done].
  split; [|done]. intros Hf.
  assert (f ∈ List.filter gives_speed record) as Hin.
  { apply last_Some in Hlast as [l ->]. set_solver. }
  apply list_elem_of_In, filter_In in Hin as [_ Hsp].
  unfold gives_speed in Hsp. rewrite Hf in Hsp. simpl in Hsp.
  by rewrite andb_false_r in Hsp.
Qed.

(** The speed of the row of one record message. *)
Lemma fit_row_speed (record : Message) (row : Row) :
  fit_row record = Ok row →
  (raw_speed record = PNone → speed_kmh row = PNone)
  ∧ (raw_speed record ≠ PNone →
     ∃ g, to_float (raw_speed record) = Ok g
       ∧ speed_kmh row = PFloat (fmul g three_point_six)).
Proof.
  intros Hrow%for_each_fit_field_speed. split.
  - intros Hnone%raw_speed_None. by rewrite Hnone in Hrow.
  - intros Hsome. rewrite raw_speed_eq in *.
    destruct (last (List.filter gives_speed record)); done.
Qed.

Lemma take_rows_subset {A} (l : list A) (idx : list nat) (x : A) :
  x ∈ take_rows l idx → x ∈ l.
Proof.
  unfold take_rows. intros (i & _ & Hi)%list_elem_of_omap.
  by eapply list_elem_of_lookup_2.
Qed.

Section Fit.
Context `{Collaborators}.

Lemma sort_values_subset (df : DataFrame) (r : Row) :
  r ∈ sort_values df → r ∈ df.
Proof.
  unfold sort_values. intros [Hr|Hr]%elem_of_app.
  - apply take_rows_subset in Hr.
    by apply list_elem_of_In, filter_In in Hr as [?%list_elem_of_In _].
  - by apply list_elem_of_In, filter_In in Hr as [?%list_elem_of_In _].
Qed.

Lemma dropna_subset (subset : list string) (df df' : DataFrame) (r : Row) :
  dropna subset df = Ok df' → r ∈ df' → r ∈ df ∧ complete subset r = true.
Proof.
  unfold dropna. destruct (forallb is_column subset); [|done].
  intros [= <-] Hr. apply list_elem_of_In, filter_In in Hr as [Hr ?].
  by apply list_elem_of_In in Hr.
Qed.

Lemma for_each_fit_record_rows (records : list Message) (acc rows : list Row)
    (r : Row) :
  for_each fit_record records acc = Ok rows →
  r ∈ rows →
  r ∈ acc ∨ ∃ record, record ∈ records ∧ fit_row record = Ok r.
Proof.
  revert acc. induction records as [|record records IH]; intros acc.
  - intros [= <-]. by left.
  - rewrite for_each_cons. intros (acc' & Hrec & Hrest)%bind_Ok Hr.
    destruct (IH _ Hrest Hr) as [Hacc|(record' & Hin & Hrow)].
    + unfold fit_record in Hrec.
      apply bind_Ok in Hrec as (row & Hrow & [= <-]).
      destruct (negb (is_none (timestamp row))); [|by left].
      apply elem_of_app in Hacc as [?|Heq%list_elem_of_singleton]; [by left|].
      subst r. right. exists record. split; [left|done].
    + right. exists record'. split; [by right|done].
Qed.

(** Every line of the DataFrame of a FIT file is the row of one of its
    record messages, with the timestamp converted. *)
Lemma parse_fit_bytes_rows (file_bytes : list Byte.byte) (df : DataFrame)
    (r : Row) :
  parse_fit_bytes file_bytes = Ok df →
  r ∈ df →
  ∃ records record row,
    fit_get_messages file_bytes = Ok records ∧ record ∈ records
    ∧ fit_row record = Ok row
    ∧ r = set_timestamp (of_option_datetime (to_datetime (timestamp row))) row
    ∧ isna (timestamp r) = false.
Proof.
  unfold parse_fit_bytes. intros (records & Hrecords & Hdf)%bind_Ok Hr.
  apply bind_Ok in Hdf as (rows & Hrows & Hdf).
  destruct (empty rows) eqn:Hempty.
  { destruct rows; [|done]. injection Hdf as <-. by apply elem_of_nil in Hr. }
  apply bind_Ok in Hdf as (df' & Hdrop & [= <-]).
  apply sort_values_subset in Hr.
  destruct (dropna_subset _ _ _ _ Hdrop Hr) as [Hr' Hcomplete].
  apply list_elem_of_fmap in Hr' as (row & -> & Hrow).
  destruct (for_each_fit_record_rows _ _ _ _ Hrows Hrow)
    as [Hnil|(record & Hin & Hfit)]; [by apply elem_of_nil in Hnil|].
  exists records, record, row. repeat split; try done.
  unfold complete in Hcomplete. simpl in Hcomplete.
  rewrite andb_true_r in Hcomplete. by apply negb_true_iff.
Qed.

(** C4. The row of a record message has [speed_kmh] equal to the raw speed
    of the message, as a float, times [3.6], and has no [speed_kmh] (not a
    zero) when the message gives no speed; the same holds of every line of
    the DataFrame of a FIT file. The raw speed is the last value given to
    the field [speed]. *)
Theorem fit_speed_is_raw_speed_times_3_6 :
  float_of_string "3.6" = Ok three_point_six
  ∧ (∀ (record : Message) (row : Row),
       fit_row record = Ok row →
       (raw_speed record = PNone → speed_kmh row = PNone)
       ∧ (raw_speed record ≠ PNone →
          ∃ g, to_float (raw_speed record) = Ok g
            ∧ speed_kmh row = PFloat (fmul g three_point_six)))
  ∧ (∀ (file_bytes : list Byte.byte) (df : DataFrame) (r : Row),
       parse_fit_bytes file_bytes = Ok df →
       r ∈ df →
       ∃ records record,
         fit_get_messages file_bytes = Ok records ∧ record ∈ records
         ∧ (raw_speed record = PNone → speed_kmh r = PNone)
         ∧ (raw_speed record ≠ PNone →
            ∃ g, to_float (raw_speed record) = Ok g
              ∧ speed_kmh r = PFloat (fmul g three_point_six))).
Proof.
  split; [by vm_compute|]. split; [apply fit_row_speed|].
  intros file_bytes df r Hdf Hr.
  destruct (parse_fit_bytes_rows _ _ _ Hdf Hr)
    as (records & record & row & Hrecords & Hin & Hrow & -> & _).
  exists records, record. repeat split; try done; simpl;
    by apply fit_row_speed.
Qed.

End Fit.

(** ** The TCX extractor *)

Lemma no_metric_no_point (col : string) (df : DataFrame) (fn : string) :
  is_column col = true →
  Forall (λ r, column col r = Some PNone) df →
  dataframe_to_apex_series df col fn = Ok {| name := fn; data := [] |}.
Proof.
  intros Hcol Hdf. rewrite dataframe_to_apex_series_eq by done.
  replace (List.filter (carries col) df) with (@nil Row); [done|].
  symmetry. induction Hdf as [|r df Hr _ IH]; [done|]. simpl.
  rewrite <- IH. unfold carries, complete. simpl. rewrite Hr. simpl.
  by rewrite andb_false_r.
Qed.

Section Tcx.
Context `{Collaborators}.

Lemma tcx_trackpoint_rows (nsmap : gmap string string) (tp : Element)
    (acc rows : list Row) :
  tcx_trackpoint nsmap acc tp = Ok rows →
  rows = acc ∨ ∃ r, rows = acc ++ [r] ∧ tcx_row_of nsmap tp r.
Proof.
  unfold tcx_trackpoint. intros (time_text & Htime & Hrows)%bind_Ok.
  destruct time_text as [time_text|]; [|injection Hrows as <-; by left].
  case_bool_decide; [injection Hrows as <-; by left|].
  destruct (to_datetime (PStr time_text)) as [t|] eqn:Ht;
    [|injection Hrows as <-; by left].
  apply bind_Ok in Hrows as (hr_text & Hhr & Hrows).
  apply bind_Ok in Hrows as (hr & Hsafe & [= <-]).
  right. eexists. split; [done|]. by exists time_text, t, hr_text, hr.
Qed.

Lemma for_each_tcx_trackpoint_rows (nsmap : gmap string string)
    (tps : list Element) (acc rows : list Row) (r : Row) :
  for_each (tcx_trackpoint nsmap) tps acc = Ok rows →
  r ∈ rows →
  r ∈ acc ∨ ∃ tp, tp ∈ tps ∧ tcx_row_of nsmap tp r.
Proof.
  revert acc. induction tps as [|tp tps IH]; intros acc.
  - intros [= <-]. by left.
  - rewrite for_each_cons. intros (acc' & Htp & Hrest)%bind_Ok Hr.
    destruct (IH _ Hrest Hr) as [Hacc|(tp' & Hin & Hrow)].
    + apply tcx_trackpoint_rows in Htp as [->|(r' & -> & Hrow)]; [by left|].
      apply elem_of_app in Hacc as [?|Heq%list_elem_of_singleton]; [by left|].
      subst r'. right. exists tp. split; [left|done].
    + right. exists tp'. split; [by right|done].
Qed.

(** Every line of the DataFrame of a TCX file is the row of one of the
    trackpoints of the document. *)
Lemma parse_tcx_bytes_rows (file_bytes : list Byte.byte) (df : DataFrame)
    (r : Row) :
  parse_tcx_bytes file_bytes = Ok df →
  r ∈ df →
  ∃ root tps tp,
    xml_fromstring file_bytes = Ok root
    ∧ xpath_all root ("tcx", "Trackpoint")%string (normalize_tcx_nsmap root)
      = Ok tps
    ∧ tp ∈ tps ∧ tcx_row_of (normalize_tcx_nsmap root) tp r.
Proof.
  unfold parse_tcx_bytes. intros (root & Hroot & Hdf)%bind_Ok Hr.
  apply bind_Ok in Hdf as (tps & Htps & Hdf).
  apply bind_Ok in Hdf as (rows & Hrows & Hdf).
  destruct (empty rows) eqn:Hempty.
  { destruct rows; [|done]. injection Hdf as <-. by apply elem_of_nil in Hr. }
  apply bind_Ok in Hdf as (df' & Hdrop & [= <-]).
  apply sort_values_subset in Hr.
  destruct (dropna_subset _ _ _ _ Hdrop Hr) as [Hr' _].
  destruct (for_each_tcx_trackpoint_rows _ _ _ _ _ Hrows Hr')
    as [Hnil|(tp & Hin & Hrow)]; [by apply elem_of_nil in Hnil|].
  by exists root, tps, tp.
Qed.

(** C8. Every line of the DataFrame of a TCX file has no [power_w] and no
    [speed_kmh] (not a zero), so the series of these two metrics have no
    point for any TCX file; the heart rate of a line is what [safe_int]
    makes of the text of [HeartRateBpm/Value] of its trackpoint. *)
Theorem tcx_has_heart_rate_only (file_bytes : list Byte.byte) (df : DataFrame) :
  parse_tcx_bytes file_bytes = Ok df →
  Forall (λ r, power_w r = PNone ∧ speed_kmh r = PNone) df
  ∧ (∀ fn, dataframe_to_apex_series df "power_w" fn
           = Ok {| name := fn; data := [] |}
         ∧ dataframe_to_apex_series df "speed_kmh" fn
           = Ok {| name := fn; data := [] |})
  ∧ ∀ r, r ∈ df →
      ∃ root tps tp hr_text hr,
        xml_fromstring file_bytes = Ok root
        ∧ xpath_all root ("tcx", "Trackpoint")%string (normalize_tcx_nsmap root)
          = Ok tps
        ∧ tp ∈ tps
        ∧ get_first_xpath_text tp
            [("tcx", "HeartRateBpm"); ("tcx", "Value")]%string
            (normalize_tcx_nsmap root) = Ok hr_text
        ∧ safe_int hr_text = Ok hr
        ∧ hr_bpm r = of_option_int hr.
Proof.
  intros Hdf.
  assert (Forall (λ r, power_w r = PNone ∧ speed_kmh r = PNone) df) as Hnone.
  { apply Forall_forall. intros r Hr.
    destruct (parse_tcx_bytes_rows _ _ _ Hdf Hr)
      as (root & tps & tp & _ & _ & _ & Hrow).
    by destruct Hrow as (? & ? & ? & ? & _ & _ & _ & _ & ->). }
  split; [done|]. split.
  - intros fn. split; apply no_metric_no_point; try done.
    + eapply Forall_impl; [exact Hnone|]. intros r [Hp _].
      unfold column. simpl. by rewrite Hp.
    + eapply Forall_impl; [exact Hnone|]. intros r [_ Hs].
      unfold column. simpl. by rewrite Hs.
  - intros r Hr.
    destruct (parse_tcx_bytes_rows _ _ _ Hdf Hr)
      as (root & tps & tp & Hroot & Htps & Hin & Hrow).
    destruct Hrow as (time_text & t & hr_text & hr & _ & _ & Hhr & Hsafe & ->).
    by exists root, tps, tp, hr_text, hr.
Qed.

End Tcx.

(** ** Sorting *)

Lemma take_rows_nil {A} (idx : list nat) : take_rows (@nil A) idx = [].
Proof. unfold take_rows. induction idx as [|i idx IH]; [done|]. by simpl. Qed.

Lemma take_rows_seq {A} (k l : list A) :
  omap (λ i, (k ++ l) !! i) (seq (length k) (length l)) = l.
Proof.
  revert k. induction l as [|x l IH]; intros k; [done|]. simpl.
  rewrite list_lookup_middle by done. f_equal.
  specialize (IH (k ++ [x])).
  rewrite <- app_assoc, length_app in IH. simpl in IH.
  by rewrite Nat.add_1_r in IH.
Qed.

Lemma take_rows_all {A} (l : list A) : take_rows l (seq 0 (length l)) = l.
Proof. apply (take_rows_seq [] l). Qed.

Lemma take_rows_perm {A} (l : list A) (idx : list nat) :
  idx ≡ₚ seq 0 (length l) → take_rows l idx ≡ₚ l.
Proof.
  intros Hidx. unfold take_rows. rewrite Hidx.
  change (take_rows l (seq 0 (length l)) ≡ₚ l). by rewrite take_rows_all.
Qed.

Lemma fmap_take_rows {A B} (f : A → B) (l : list A) (idx : list nat) :
  f <$> take_rows l idx = take_rows (f <$> l) idx.
Proof.
  unfold take_rows. induction idx as [|i idx IH]; [done|]. simpl.
  rewrite list_lookup_fmap. destruct (l !! i); simpl; [f_equal|]; apply IH.
Qed.

Lemma filter_all {A} (p : A → bool) (l : list A) :
  Forall (λ x, p x = true) l → List.filter p l = l.
Proof. induction 1 as [|x l Hx _ IH]; [done|]. simpl. by rewrite Hx, IH. Qed.

Lemma filter_none {A} (p : A → bool) (l : list A) :
  Forall (λ x, p x = false) l → List.filter p l = [].
Proof. induction 1 as [|x l Hx _ IH]; [done|]. simpl. by rewrite Hx. Qed.

Section Sorting.
Context `{Collaborators}.

Lemma sort_values_present (df : DataFrame) :
  Forall (λ r, isna (timestamp r) = false) df →
  sort_values df
  = take_rows df (argsort ((λ r, astype_int64 (timestamp r)) <$> df)).
Proof.
  intros Hdf. unfold sort_values.
  rewrite filter_all, filter_none, app_nil_r; try done.
  eapply Forall_impl; [exact Hdf|]. intros r Hr. simpl. by rewrite Hr.
Qed.

Lemma sort_values_sorted (df : DataFrame) :
  argsort_spec argsort →
  Forall (λ r, isna (timestamp r) = false) df →
  sort_values df ≡ₚ df ∧ timestamps_sorted (sort_values df).
Proof.
  intros Hsort Hdf. rewrite sort_values_present by done.
  destruct (Hsort ((λ r, astype_int64 (timestamp r)) <$> df)) as [Hperm Hsorted].
  rewrite length_fmap in Hperm. split; [by apply take_rows_perm|].
  unfold timestamps_sorted. by rewrite fmap_take_rows.
Qed.

Lemma dropna_timestamp_present (df df' : DataFrame) :
  dropna ["timestamp"%string] df = Ok df' →
  Forall (λ r, isna (timestamp r) = false) df'.
Proof.
  intros Hdrop. apply Forall_forall. intros r Hr.
  destruct (dropna_subset _ _ _ _ Hdrop Hr) as [_ Hc].
  unfold complete in Hc. simpl in Hc. rewrite andb_true_r in Hc.
  by apply negb_true_iff.
Qed.

Lemma parse_fit_bytes_extracted (file_bytes : list Byte.byte) :
  parse_fit_bytes file_bytes
  = rows ← fit_extracted file_bytes; Ok (sort_values rows).
Proof.
  unfold parse_fit_bytes, fit_extracted.
  destruct (fit_get_messages file_bytes) as [records|e]; [|done].
  rewrite !ret_bind.
  destruct (for_each fit_record records []) as [rows|e]; [|done].
  rewrite !ret_bind. destruct rows as [|r rows]; [|done].
  simpl. unfold sort_values. simpl. by rewrite take_rows_nil.
Qed.

Lemma parse_tcx_bytes_extracted (file_bytes : list Byte.byte) :
  parse_tcx_bytes file_bytes
  = rows ← tcx_extracted file_bytes; Ok (sort_values rows).
Proof.
  unfold parse_tcx_bytes, tcx_extracted.
  destruct (xml_fromstring file_bytes) as [root|e]; [|done].
  rewrite !ret_bind.
  destruct (xpath_all root _ _) as [tps|e]; [|done].
  rewrite !ret_bind.
  destruct (for_each _ tps []) as [rows|e]; [|done].
  rewrite !ret_bind. destruct rows as [|r rows]; [|done].
  simpl. unfold sort_values. simpl. by rewrite take_rows_nil.
Qed.

Lemma fit_extracted_present (file_bytes : list Byte.byte) (rows : DataFrame) :
  fit_extracted file_bytes = Ok rows →
  Forall (λ r, isna (timestamp r) = false) rows.
Proof.
  unfold fit_extracted. intros (records & _ & Hrows)%bind_Ok.
  apply bind_Ok in Hrows as (rows0 & _ & Hdrop).
  by eapply dropna_timestamp_present.
Qed.

Lemma tcx_extracted_present (file_bytes : list Byte.byte) (rows : DataFrame) :
  tcx_extracted file_bytes = Ok rows →
  Forall (λ r, isna (timestamp r) = false) rows.
Proof.
  unfold tcx_extracted. intros (root & _ & Hrows)%bind_Ok.
  apply bind_Ok in Hrows as (tps & _ & Hrows).
  apply bind_Ok in Hrows as (rows0 & _ & Hdrop).
  by eapply dropna_timestamp_present.
Qed.

End Sorting.

(** ** The stand-in sorters sort *)

Module SampleFacts.
Import Sample.

Section Insertion.
Variable before : Z → Z → bool.
Hypothesis before_le : ∀ x y, before x y = true → x ≤ y.
Hypothesis not_before_le : ∀ x y, before x y = false → y ≤ x.

Lemma insert_key_perm (x : Z * nat) (l : list (Z * nat)) :
  insert_key before x l ≡ₚ x :: l.
Proof.
  induction l as [|y l IH]; simpl; [done|].
  destruct (before x.1 y.1); [done|]. by rewrite IH, Permutation_swap.
Qed.

Lemma insert_key_HdRel (x y : Z * nat) (l : list (Z * nat)) :
  key_le y x → HdRel key_le y l → HdRel key_le y (insert_key before x l).
Proof.
  intros Hyx Hl. destruct l as [|z l]; simpl; [by constructor|].
  destruct (before x.1 z.1); constructor; [done|]. by inversion Hl.
Qed.

Lemma insert_key_sorted (x : Z * nat) (l : list (Z * nat)) :
  Sorted key_le l → Sorted key_le (insert_key before x l).
Proof.
  induction 1 as [|y l Hl IH Hy]; simpl; [by repeat constructor|].
  destruct (before x.1 y.1) eqn:Hxy.
  - constructor; [by constructor|]. constructor. by apply before_le.
  - constructor; [done|]. apply insert_key_HdRel; [|done].
    by apply not_before_le.
Qed.

Lemma insertion_perm (l : list (Z * nat)) :
  foldr (insert_key before) [] l ≡ₚ l.
Proof.
  induction l as [|x l IH]; simpl; [done|]. by rewrite insert_key_perm, IH.
Qed.

Lemma insertion_sorted (l : list (Z * nat)) :
  Sorted key_le (foldr (insert_key before) [] l).
Proof.
  induction l as [|x l IH]; simpl; [constructor|]. by apply insert_key_sorted.
Qed.

Lemma keys_through_positions (keys : list Z) (l : list (Z * nat)) :
  Forall (λ p, keys !! p.2 = Some p.1) l →
  omap (λ i, keys !! i) (l.*2) = l.*1.
Proof.
  induction 1 as [|[k i] l Hp _ IH]; [done|]. simpl in *.
  rewrite Hp. simpl. f_equal. apply IH.
Qed.

Lemma zip_positions (keys : list Z) :
  Forall (λ p, keys !! p.2 = Some p.1) (zip keys (seq 0 (length keys))).
Proof.
  apply Forall_forall. intros [k i] (j & Hj)%list_elem_of_lookup_1.
  apply lookup_zip_with_Some in Hj as (k' & i' & [= <- <-] & Hk & Hi).
  apply lookup_seq in Hi as [-> _]. done.
Qed.

Lemma argsort_by_spec : argsort_spec (argsort_by before).
Proof.
  intros keys. unfold argsort_by.
  set (pairs := zip keys (seq 0 (length keys))).
  pose proof (insertion_perm pairs) as Hperm.
  split.
  - rewrite Hperm. unfold pairs. rewrite snd_zip; [done|].
    by rewrite length_seq.
  - rewrite keys_through_positions.
    + eapply Sorted_fmap; [|apply insertion_sorted]. by intros [] [].
    + rewrite Hperm. apply zip_positions.
Qed.

End Insertion.

Lemma argsort_stable_spec : argsort_spec argsort_stable.
Proof. apply argsort_by_spec; intros x y; lia. Qed.

End SampleFacts.

(** ** The quicksort sorts *)

Module NumpyFacts.
Import Numpy.
Section Sort.
Context {A : Type} (key : A → Z).



(** *** Exchanges *)

Lemma length_swap (a : list A) (i j : nat) : length (swap a i j) = length a.
Proof.
  unfold swap. destruct (a !! i), (a !! j); try done.
  by rewrite !length_insert.
Qed.




(** *** The insertion sort *)










(** *** The partition *)


Lemma length_cswap (a : list A) (i j : nat) :
  length (cswap key a i j) = length a.
Proof. unfold cswap. destruct (less_at key a i j); [apply length_swap|done]. Qed.








(** *** The heap sort *)














(** *** The whole sort *)





(** *** Short arrays keep the order of equal keys *)







End Sort.


End NumpyFacts.

(** ** The frames that the quicksort gives *)





Section Quicksort.
Context `{Collaborators}.



End Quicksort.


(** ** The projector leaves its frame as it was *)

Lemma st_bind_eq {A B} (m : Frames.St A) (k : A → Frames.St B)
    (h : gmap nat DataFrame) :
  Frames.st_bind m k h
  = match m h with
    | Ok (a, h') => k a h'
    | Raise e => Raise e
    end.
Proof. done. Qed.

Lemma st_empty_eq (h : gmap nat DataFrame) (r : nat) (df : DataFrame) :
  h !! r = Some df → Frames.st_empty r h = Ok (empty df, h).
Proof.
  intros Hr. unfold Frames.st_empty, Frames.st_bind, Frames.deref.
  by rewrite Hr.
Qed.

Lemma st_dropna_eq (h : gmap nat DataFrame) (r : nat) (df : DataFrame)
    (subset : list string) :
  h !! r = Some df →
  Frames.st_dropna subset r h
  = match dropna subset df with
    | Ok df' => Ok (fresh (dom h), <[fresh (dom h) := df']> h)
    | Raise e => Raise e
    end.
Proof.
  intros Hr. unfold Frames.st_dropna, Frames.st_bind, Frames.deref.
  rewrite Hr. unfold Frames.st_lift. by destruct (dropna subset df).
Qed.

Lemma st_timestamp_ms_eq (h : gmap nat DataFrame) (r : nat) (df : DataFrame) :
  h !! r = Some df →
  Frames.st_timestamp_ms r h
  = Ok ((λ row, astype_int64 (timestamp row) `div` 1000000) <$> df, h).
Proof.
  intros Hr. unfold Frames.st_timestamp_ms, Frames.st_bind, Frames.deref.
  by rewrite Hr.
Qed.

Lemma st_tolist_eq (h : gmap nat DataFrame) (r : nat) (df : DataFrame)
    (col : string) :
  h !! r = Some df →
  Frames.st_tolist col r h
  = match tolist col df with
    | Ok vs => Ok (vs, h)
    | Raise e => Raise e
    end.
Proof.
  intros Hr. unfold Frames.st_tolist, Frames.st_bind, Frames.deref.
  by rewrite Hr.
Qed.

(** On a store that holds [df] at [r], the projector on the reference does
    what the projector does on [df], and only adds frames to the store. *)
Lemma projector_on_reference (h : gmap nat DataFrame) (r : nat)
    (df : DataFrame) (col fn : string) :
  h !! r = Some df →
  match dataframe_to_apex_series df col fn with
  | Ok a => ∃ h', Frames.dataframe_to_apex_series r col fn h = Ok (a, h')
               ∧ h ⊆ h'
  | Raise e => Frames.dataframe_to_apex_series r col fn h = Raise e
  end.
Proof.
  intros Hr.
  unfold dataframe_to_apex_series, Frames.dataframe_to_apex_series.
  rewrite st_bind_eq, (st_empty_eq h r df Hr).
  destruct (empty df); [by exists h|].
  rewrite st_bind_eq, (st_dropna_eq h r df _ Hr).
  destruct (dropna ["timestamp"%string; col] df) as [dfm|e]; [|done].
  rewrite ret_bind.
  set (r' := fresh (dom h)). set (h1 := <[r' := dfm]> h).
  assert (h !! r' = None) as Hfresh by apply not_elem_of_dom, is_fresh.
  assert (h ⊆ h1) as Hsub by (by apply insert_subseteq).
  assert (h1 !! r' = Some dfm) as Hr' by apply lookup_insert_eq.
  rewrite st_bind_eq, (st_empty_eq h1 r' dfm Hr').
  destruct (empty dfm); [by exists h1|].
  rewrite st_bind_eq, (st_timestamp_ms_eq h1 r' dfm Hr').
  rewrite st_bind_eq, (st_tolist_eq h1 r' dfm col Hr').
  destruct (tolist col dfm) as [values|e]; [|done]. rewrite ret_bind.
  rewrite st_bind_eq. unfold Frames.st_lift.
  destruct (for_each add_point _ []) as [points|e]; [|done].
  rewrite ret_bind. by exists h1.
Qed.

(** C9. Projecting the same frame and metric twice gives the same series
    both times, and the frame is after each call what it was before: the
    projector reads its frame and writes only to frames of its own. *)
Theorem projecting_twice_gives_the_same_series (h h1 : gmap nat DataFrame)
    (r : nat) (df : DataFrame) (col fn : string) (a : Series) :
  h !! r = Some df →
  Frames.dataframe_to_apex_series r col fn h = Ok (a, h1) →
  h1 !! r = Some df
  ∧ dataframe_to_apex_series df col fn = Ok a
  ∧ ∃ h2, Frames.dataframe_to_apex_series r col fn h1 = Ok (a, h2)
       ∧ h2 !! r = Some df.
Proof.
  intros Hr Hrun.
  pose proof (projector_on_reference h r df col fn Hr) as Hfirst.
  destruct (dataframe_to_apex_series df col fn) as [a'|e] eqn:Hpure;
    [|congruence].
  destruct Hfirst as (h' & Hrun' & Hsub).
  assert (a' = a ∧ h' = h1) as [-> ->] by (split; congruence).
  assert (h1 !! r = Some df) as Hr1 by (by eapply lookup_weaken).
  split; [done|]. split; [done|].
  pose proof (projector_on_reference h1 r df col fn Hr1) as Hsecond.
  rewrite Hpure in Hsecond. destruct Hsecond as (h2 & Hrun2 & Hsub2).
  exists h2. split; [done|]. by eapply lookup_weaken.
Qed.

(** ** The statements at concrete batches *)

Lemma empty_decode_skipped_decoder_error_raised_witness :
  let C := Sample.collaborators in
  let header_only := {| filename := Some "h.fit"%string; content := [x0e] |} in
  let no_content := {| filename := Some "a.tcx"%string; content := [] |} in
  let good := {| filename := Some "b.fit"%string; content := one_record |} in
  (@decodes_to_nothing C header_only
   ∧ @parse_activity_files C ([good] ++ header_only :: [good])
     = @parse_activity_files C ([good] ++ [good]))
  ∧ (@decoder_raises C no_content XMLSyntaxError
     ∧ ∃ e', @parse_activity_files C ([good] ++ no_content :: [good]) = Raise e').
Proof.
  intros C header_only no_content good.
  assert (@decodes_to_nothing C header_only) as H0
    by (left; split; vm_compute; reflexivity).
  assert (@decoder_raises C no_content XMLSyntaxError) as H1
    by (right; split; vm_compute; reflexivity).
  split; split; try assumption.
  - exact (proj2 (proj2
      (proj1 (@empty_decode_skipped_decoder_error_raised C header_only
                [good] [good]) H0))).
  - exact (proj2
      (proj2 (@empty_decode_skipped_decoder_error_raised C no_content
                [good] [good]) XMLSyntaxError H1)).
Defined.


Lemma fit_speed_is_raw_speed_times_3_6_witness :
  let C := Sample.collaborators in
  let record := Sample.fit_message x05 x96 xff x05 in
  let row := {| timestamp := PDatetime 5000000000; hr_bpm := PInt 150;
                power_w := PNone;
                speed_kmh := PFloat (S754_finite false 5066549580791808 (-48)) |} in
  fit_row record = Ok row
  ∧ raw_speed record ≠ PNone
  ∧ ∃ g, to_float (raw_speed record) = Ok g
      ∧ speed_kmh row = PFloat (fmul g three_point_six).
Proof.
  intros C record row.
  assert (fit_row record = Ok row) as Hrow by (vm_compute; reflexivity).
  assert (raw_speed record ≠ PNone) as Hraw by (vm_compute; discriminate).
  split; [exact Hrow|]. split; [exact Hraw|].
  exact (proj2 (proj1 (proj2 (@fit_speed_is_raw_speed_times_3_6 C))
                  record row Hrow) Hraw).
Defined.

Lemma series_has_the_points_of_carrying_rows_witness :
  let df := [ {| timestamp := PDatetime 5000000000; hr_bpm := PInt 150;
                 power_w := PNone; speed_kmh := PNone |};
              {| timestamp := PDatetime 6000000000; hr_bpm := PNone;
                 power_w := PInt 0; speed_kmh := PNone |} ] in
  ("hr_bpm" ∈ SUPPORTED_METRICS)%string
  ∧ dataframe_to_apex_series df "hr_bpm" "f.fit"
    = Ok {| name := "f.fit";
            data := [(5000, S754_finite false 5277655813324800 (-45))] |}
  ∧ dataframe_to_apex_series df "hr_bpm" "f.fit"
    = (points ← mapM (point_of "hr_bpm") (List.filter (carries "hr_bpm") df);
       Ok {| name := "f.fit"; data := points |}).
Proof.
  intros df.
  assert ("hr_bpm" ∈ SUPPORTED_METRICS)%string as Hm by (left; reflexivity).
  split; [exact Hm|]. split; [vm_compute; reflexivity|].
  exact (proj1 (series_has_the_points_of_carrying_rows df "hr_bpm" "f.fit" Hm)).
Defined.

Lemma series_follow_submission_order_witness :
  let C := Sample.collaborators in
  let files := [ {| filename := Some "a.fit"%string; content := one_record |};
                 {| filename := Some "b.tcx"%string; content := two_trackpoints |};
                 {| filename := Some "ride.gpx"%string; content := [] |};
                 {| filename := Some "c.fit"%string; content := one_record |} ] in
  ∃ r, @parse_activity_files C files = Ok r
    ∧ ("hr_bpm" ∈ SUPPORTED_METRICS)%string
    ∧ series r !! "hr_bpm"%string = Some (files ≫= @contribution C "hr_bpm")
    ∧ name <$> (files ≫= @contribution C "hr_bpm")
      = ["a.fit"; "b.tcx"; "c.fit"]%string.
Proof.
  intros C files.
  destruct (@parse_activity_files C files) as [r|e] eqn:Hr;
    [|vm_compute in Hr; discriminate Hr].
  assert ("hr_bpm" ∈ SUPPORTED_METRICS)%string as Hm by (left; reflexivity).
  exists r. split; [reflexivity|]. split; [exact Hm|].
  split; [|vm_compute; reflexivity].
  exact (proj1 (@series_follow_submission_order C files r "hr_bpm" Hr Hm)).
Defined.

Lemma format_selected_by_suffix_witness :
  let C := Sample.collaborators in
  suffix_ci ".fit" "Ride.FiT"
  ∧ @extract_dataframe_from_file C "Ride.FiT" one_record
    = @parse_fit_bytes C one_record
  ∧ suffix_ci ".tcx" "run.TCX"
  ∧ @extract_dataframe_from_file C "run.TCX" two_trackpoints
    = @parse_tcx_bytes C two_trackpoints.
Proof.
  intros C.
  assert (suffix_ci ".fit" "Ride.FiT") as Hfit.
  { exists (chars "Ride"), (chars ".FiT"). split; [reflexivity|].
    repeat constructor. }
  assert (suffix_ci ".tcx" "run.TCX") as Htcx.
  { exists (chars "run"), (chars ".TCX"). split; [reflexivity|].
    repeat constructor. }
  split; [exact Hfit|]. split.
  - exact (proj1 (@format_selected_by_suffix C "Ride.FiT" one_record) Hfit).
  - split; [exact Htcx|].
    exact (proj1 (proj2 (@format_selected_by_suffix C "run.TCX" two_trackpoints))
             Htcx).
Defined.

Lemma tcx_has_heart_rate_only_witness :
  let C := Sample.collaborators in
  ∃ df, @parse_tcx_bytes C two_trackpoints = Ok df
    ∧ hr_bpm <$> df = [PInt 72; PInt 140]
    ∧ Forall (λ r, power_w r = PNone ∧ speed_kmh r = PNone) df
    ∧ dataframe_to_apex_series df "power_w" "b.tcx"
      = Ok {| name := "b.tcx"; data := [] |}.
Proof.
  intros C.
  destruct (@parse_tcx_bytes C two_trackpoints) as [df|e] eqn:Hdf;
    [|vm_compute in Hdf; discriminate Hdf].
  exists df. split; [reflexivity|].
  pose proof (@tcx_has_heart_rate_only C two_trackpoints df Hdf)
    as (Hnone & Hseries & _).
  split; [|split; [exact Hnone|exact (proj1 (Hseries "b.tcx"%string))]].
  vm_compute in Hdf. injection Hdf as <-. reflexivity.
Defined.

Lemma projecting_twice_gives_the_same_series_witness :
  let df := [ {| timestamp := PDatetime 5000000000; hr_bpm := PInt 150;
                 power_w := PNone; speed_kmh := PNone |} ] in
  let h : gmap nat DataFrame := {[ 0%nat := df ]} in
  ∃ a h1 h2,
    h !! 0%nat = Some df
    ∧ Frames.dataframe_to_apex_series 0 "hr_bpm" "f.fit" h = Ok (a, h1)
    ∧ Frames.dataframe_to_apex_series 0 "hr_bpm" "f.fit" h1 = Ok (a, h2)
    ∧ h2 !! 0%nat = Some df.
Proof.
  intros df h.
  assert (h !! 0%nat = Some df) as Hr by (vm_compute; reflexivity).
  destruct (Frames.dataframe_to_apex_series 0 "hr_bpm" "f.fit" h)
    as [[a h1]|e] eqn:Hrun; [|vm_compute in Hrun; discriminate Hrun].
  destruct (projecting_twice_gives_the_same_series h h1 0 df
              "hr_bpm" "f.fit" a Hr Hrun) as (_ & _ & h2 & Hrun2 & Hr2).
  exists a, h1, h2. split; [exact Hr|]. split; [reflexivity|].
  split; [exact Hrun2|exact Hr2].
Defined.

Lemma response_has_the_three_keys_witness :
  let C := Sample.collaborators in
  let files := [ {| filename := Some "a.fit"%string; content := one_record |};
                 {| filename := Some "ride.gpx"%string; content := [] |} ] in
  ∃ r, @parse_activity_files C files = Ok r
    ∧ dom (series r) = {[ "hr_bpm"; "speed_kmh"; "power_w" ]}%string.
Proof.
  intros C files.
  destruct (@parse_activity_files C files) as [r|e] eqn:Hr;
    [|vm_compute in Hr; discriminate Hr].
  exists r. split; [reflexivity|].
  exact (proj1 (proj1 (@response_has_the_three_keys C) files r Hr)).
Defined.

(** * Further properties of the program *)

(** ** The namespace map *)

Lemma fold_nsmap_lookup (raw : list (option string * string))
    (acc : gmap string string) (k : string) :
  fold_left (λ (acc : gmap string string) '(key, value),
      if bool_decide (value = ""%string) then acc
      else match key with
           | None => <["tcx"%string := value]> acc
           | Some key => <[key := value]> acc
           end) raw acc !! k
  = match declared_uri k raw with
    | Some uri => Some uri
    | None => acc !! k
    end.
Proof.
  unfold declared_uri. revert acc.
  induction raw as [|[key value] raw IH]; intros acc; [done|].
  cbn [fold_left List.filter]. rewrite IH. cbn [fst snd].
  destruct (bool_decide (value = ""%string)) eqn:Hval.
  { by rewrite andb_false_r. }
  rewrite andb_true_r.
  assert ((match key with
           | Some key0 => <[key0:=value]> acc
           | None => <["tcx"%string:=value]> acc
           end) = <[filed_under key := value]> acc) as -> by (by destruct key).
  destruct (bool_decide (filed_under key = k)) eqn:Hk.
  - apply bool_decide_eq_true in Hk. rewrite last_cons.
    destruct (last _) as [[key' uri]|]; [done|]. simpl.
    by rewrite Hk, lookup_insert_eq.
  - apply bool_decide_eq_false in Hk.
    destruct (last _) as [[key' uri]|]; [done|]. simpl.
    by rewrite lookup_insert_ne.
Qed.

Lemma declared_uri_nonempty (k uri : string) (raw : list (option string * string)) :
  declared_uri k raw = Some uri → uri ≠ ""%string.
Proof.
  unfold declared_uri.
  destruct (last _) as [[key v]|] eqn:Hlast; [|done]. intros [= <-].
  assert ((key, v) ∈ List.filter
            (λ d, bool_decide (filed_under d.1 = k)
                  && negb (bool_decide (d.2 = ""%string))) raw) as Hin.
  { apply last_Some in Hlast as [l ->]. apply elem_of_app. right. left. }
  apply list_elem_of_In, filter_In in Hin as [_ Hd]. simpl in Hd.
  apply andb_true_iff in Hd as [_ Hv]. apply negb_true_iff in Hv.
  by apply bool_decide_eq_false in Hv.
Qed.

Lemma normalize_tcx_nsmap_lookup (root : Element) (k : string) :
  normalize_tcx_nsmap root !! k
  = match declared_uri k (el_nsmap root) with
    | Some uri => Some uri
    | None => if decide (k = "tcx"%string) then Some TCX_V2 else None
    end.
Proof.
  unfold normalize_tcx_nsmap.
  pose proof (fold_nsmap_lookup (el_nsmap root) ∅) as Hfold.
  destruct (fold_left _ (el_nsmap root) ∅ !! "tcx"%string) as [u|] eqn:Htcx.
  - rewrite Hfold, lookup_empty.
    destruct (declared_uri k (el_nsmap root)) eqn:Hk; [done|].
    case_decide as Heq; [|done]. subst k.
    rewrite Hfold, Hk, lookup_empty in Htcx. done.
  - rewrite lookup_insert. case_decide as Heq.
    + subst k. rewrite decide_True by done.
      rewrite Hfold, lookup_empty in Htcx.
      by destruct (declared_uri "tcx" (el_nsmap root)).
    + rewrite Hfold, lookup_empty.
      rewrite decide_False by done. done.
Qed.

(** X1. The normalised namespace map binds a prefix to the last non-empty
    URI declared for it on the root, the default namespace counting as a
    declaration of [tcx]; when nothing is declared for [tcx], the TCX v2
    namespace is used. Other prefixes are bound only when declared. *)
Theorem normalized_nsmap_is_last_declaration (root : Element) (k : string) :
  normalize_tcx_nsmap root !! k
  = match declared_uri k (el_nsmap root) with
    | Some uri => Some uri
    | None => if decide (k = "tcx"%string) then Some TCX_V2 else None
    end.
Proof. apply normalize_tcx_nsmap_lookup. Qed.

Lemma normalize_tcx_nsmap_tcx (root : Element) :
  ∃ uri, normalize_tcx_nsmap root !! "tcx"%string = Some uri.
Proof.
  rewrite normalize_tcx_nsmap_lookup.
  destruct (declared_uri "tcx" (el_nsmap root)); eauto.
Qed.

Lemma xpath_all_tcx (root e : Element) (l : string) :
  ∃ uri, normalize_tcx_nsmap e !! "tcx"%string = Some uri
    ∧ xpath_all root ("tcx"%string, l) (normalize_tcx_nsmap e)
      = Ok (List.filter (has_name (uri, l)) (descendants_or_self root)).
Proof.
  destruct (normalize_tcx_nsmap_tcx e) as [uri Huri]. exists uri.
  split; [done|]. unfold xpath_all, resolve. simpl. by rewrite Huri.
Qed.

Lemma xpath_children_tcx (node e : Element) (path : list string) :
  ∃ found, xpath_children node ((λ l, ("tcx"%string, l)) <$> path)
             (normalize_tcx_nsmap e) = Ok found.
Proof.
  destruct (normalize_tcx_nsmap_tcx e) as [uri Huri].
  unfold xpath_children.
  assert (mapM (resolve (normalize_tcx_nsmap e))
            ((λ l, ("tcx"%string, l)) <$> path)
          = Ok ((λ l, (uri, l)) <$> path)) as ->.
  { induction path as [|l path IH]; [done|].
    rewrite !fmap_cons, mapM_cons, IH. unfold resolve at 1. simpl.
    by rewrite Huri. }
  rewrite ret_bind. by eexists.
Qed.

Lemma get_first_xpath_text_tcx (node e : Element) (path : list string) :
  ∃ t, get_first_xpath_text node ((λ l, ("tcx"%string, l)) <$> path)
         (normalize_tcx_nsmap e) = Ok t.
Proof.
  unfold get_first_xpath_text.
  destruct (xpath_children_tcx node e path) as [found ->]. rewrite ret_bind.
  destruct found; by eexists.
Qed.

(** X2. Every URI of the normalised namespace map is non-empty and [tcx]
    is always bound, so the three queries of [parse_tcx_bytes] never fail
    on an unbound prefix: each one returns. *)
Theorem normalized_nsmap_serves_the_queries (root node : Element) :
  (∀ k uri, normalize_tcx_nsmap root !! k = Some uri → uri ≠ ""%string)
  ∧ (∃ uri, normalize_tcx_nsmap root !! "tcx"%string = Some uri)
  ∧ (∃ tps, xpath_all root ("tcx", "Trackpoint")%string
              (normalize_tcx_nsmap root) = Ok tps)
  ∧ (∃ t, get_first_xpath_text node [("tcx", "Time")]%string
            (normalize_tcx_nsmap root) = Ok t)
  ∧ (∃ t, get_first_xpath_text node
            [("tcx", "HeartRateBpm"); ("tcx", "Value")]%string
            (normalize_tcx_nsmap root) = Ok t).
Proof.
  split; [|split; [apply normalize_tcx_nsmap_tcx|split; [|split]]].
  - intros k uri. rewrite normalize_tcx_nsmap_lookup.
    destruct (declared_uri k (el_nsmap root)) as [u|] eqn:Hk.
    + intros [= <-]. by eapply declared_uri_nonempty.
    + case_decide; [|done]. by intros [= <-].
  - destruct (xpath_all_tcx root root "Trackpoint") as (uri & _ & ->).
    by eexists.
  - apply (get_first_xpath_text_tcx node root ["Time"%string]).
  - apply (get_first_xpath_text_tcx node root
             ["HeartRateBpm"; "Value"]%string).
Qed.

(** ** The safe scalar parsers, further *)

Lemma float_of_string_empty : float_of_string "" = Raise ValueError.
Proof. by vm_compute. Qed.

Lemma lstrip_split (l : list ascii) :
  ∃ w, l = w ++ lstrip l ∧ Forall (λ c, isspace c = true) w.
Proof.
  induction l as [|c l (w & Hl & Hw)]; [by exists []|]. simpl.
  destruct (isspace c) eqn:Hc; [|by exists []].
  exists (c :: w). split; [by rewrite <- app_comm_cons, <- Hl|].
  by constructor.
Qed.

Lemma lstrip_head (l : list ascii) :
  match lstrip l with
  | c :: _ => isspace c = false
  | [] => True
  end.
Proof.
  induction l as [|c l IH]; [done|]. simpl.
  destruct (isspace c) eqn:Hc; [done|]. simpl. done.
Qed.

Lemma lstrip_fixed (l : list ascii) :
  match l with c :: _ => isspace c = false | [] => True end → lstrip l = l.
Proof. destruct l as [|c l]; [done|]. simpl. by intros ->. Qed.

Lemma lstrip_idemp (l : list ascii) : lstrip (lstrip l) = lstrip l.
Proof. apply lstrip_fixed, lstrip_head. Qed.

Lemma rstrip_idemp (l : list ascii) : rstrip (rstrip l) = rstrip l.
Proof. unfold rstrip. by rewrite rev_involutive, lstrip_idemp. Qed.

Lemma rstrip_split (l : list ascii) : ∃ w, l = rstrip l ++ w.
Proof.
  unfold rstrip. destruct (lstrip_split (rev l)) as (w & Hl & _).
  exists (rev w). rewrite <- rev_app_distr, <- Hl. by rewrite rev_involutive.
Qed.

Lemma lstrip_rstrip_lstrip (l : list ascii) :
  lstrip (rstrip (lstrip l)) = rstrip (lstrip l).
Proof.
  apply lstrip_fixed. pose proof (lstrip_head l) as Hhead.
  destruct (rstrip_split (lstrip l)) as [w Hw].
  destruct (rstrip (lstrip l)) as [|c b]; [done|].
  rewrite Hw in Hhead. done.
Qed.

Lemma strip_idemp (s : string) : strip (strip s) = strip s.
Proof.
  unfold strip. rewrite chars_of_chars.
  by rewrite lstrip_rstrip_lstrip, rstrip_idemp.
Qed.

(** X3. [safe_float] never raises. It returns nothing exactly when the value
    is absent, blank after stripping, or not accepted by [float]; otherwise
    it returns the float of the stripped text. *)
Theorem safe_float_outcome (v : option string) :
  (∃ r, safe_float v = Ok r)
  ∧ (safe_float v = Ok None
     ↔ v = None
       ∨ ∃ s, v = Some s
           ∧ (strip s = ""%string
              ∨ float_of_string (strip s) = Raise ValueError))
  ∧ (∀ s f, v = Some s → float_of_string (strip s) = Ok f →
            safe_float v = Ok (Some f)).
Proof.
  split; [apply safe_float_total|]. split.
  - destruct v as [s|]; simpl; [|split; [by left|done]].
    case_bool_decide as Hblank.
    { split; [|done]. intros _. right. exists s. split; [done|by left]. }
    destruct (float_of_string (strip s)) as [f|e] eqn:Hf; simpl.
    + split; [done|]. intros [?|(s' & [= <-] & [?|?])]; congruence.
    + pose proof (float_of_string_raises _ _ Hf) as ->. simpl.
      split; [|done]. intros _. right. exists s. split; [done|]. by right.
  - intros s f -> Hf. simpl. case_bool_decide as Hblank.
    + rewrite Hblank, float_of_string_empty in Hf. done.
    + by rewrite Hf.
Qed.

Lemma safe_int_raises (v : option string) (e : Exception) :
  safe_int v = Raise e
  ↔ e = OverflowError ∧ ∃ s, v = Some s ∧ denotes_infinity s.
Proof.
  unfold denotes_infinity. split.
  - intros He. destruct (safe_int_outcome v) as [[r Hr]|[Hraise Hinf]];
      [congruence|].
    split; [congruence|]. destruct Hinf as (s & sign & -> & Hs). eauto.
  - intros (-> & s & -> & sign & Hs). simpl.
    case_bool_decide as Hblank.
    + rewrite Hblank, float_of_string_empty in Hs. done.
    + by rewrite Hs.
Qed.

(** X4. [safe_int] raises exactly when the text denotes an infinity, and
    then it is [OverflowError] that it raises; on every other input it
    returns. *)
Theorem safe_int_raises_exactly_on_infinity (v : option string) :
  (∀ e, safe_int v = Raise e
        ↔ e = OverflowError ∧ ∃ s, v = Some s ∧ denotes_infinity s)
  ∧ ((∀ s, v = Some s → ¬ denotes_infinity s) → ∃ r, safe_int v = Ok r).
Proof.
  split; [apply safe_int_raises|]. intros Hfinite.
  destruct (safe_int v) as [r|e] eqn:Hv; [by eexists|].
  apply safe_int_raises in Hv as (_ & s & -> & Hs). by destruct (Hfinite s).
Qed.

Lemma safe_int_raises_exactly_on_infinity_witness :
  (∀ s, Some "72.9"%string = Some s → ¬ denotes_infinity s)
  ∧ ∃ r, safe_int (Some "72.9"%string) = Ok r.
Proof.
  assert (∀ s, Some "72.9"%string = Some s → ¬ denotes_infinity s) as Hfin.
  { intros s [= <-] [sign Hs]. vm_compute in Hs. discriminate Hs. }
  split; [exact Hfin|].
  exact (proj2 (safe_int_raises_exactly_on_infinity (Some "72.9"%string)) Hfin).
Defined.

(** X5. The safe parsers read the stripped text only: a value and the same
    value stripped give the same result, and stripping twice is stripping
    once. *)
Theorem safe_parsers_ignore_surrounding_space (s : string) :
  strip (strip s) = strip s
  ∧ safe_int (Some (strip s)) = safe_int (Some s)
  ∧ safe_float (Some (strip s)) = safe_float (Some s).
Proof.
  split; [apply strip_idemp|]. unfold safe_int, safe_float.
  by rewrite !strip_idemp.
Qed.

Lemma safe_float_outcome_witness :
  float_of_string (strip " 1_0.5e1 ")
  = Ok (S754_finite false 7388718138654720 (-46))
  ∧ safe_float (Some " 1_0.5e1 "%string)
    = Ok (Some (S754_finite false 7388718138654720 (-46))).
Proof.
  assert (float_of_string (strip " 1_0.5e1 ")
          = Ok (S754_finite false 7388718138654720 (-46))) as Hf
    by (vm_compute; reflexivity).
  split; [exact Hf|].
  exact (proj2 (proj2 (safe_float_outcome (Some " 1_0.5e1 "%string)))
           " 1_0.5e1 "%string _ eq_refl Hf).
Defined.

(** ** The FIT extractor, further *)

(** A field whose branch of [fit_field] stores the value as it is. *)
Lemma for_each_fit_field_last (name : string) (get : Row → Value)
    (fields : list FieldData) (row0 row : Row) :
  (∀ r f r', field_name f = name → fit_field r f = Ok r' →
             get r' = field_value f) →
  (∀ r f r', field_name f ≠ name → fit_field r f = Ok r' → get r' = get r) →
  for_each fit_field fields row0 = Ok row →
  get row
  = match last (List.filter (λ f, bool_decide (field_name f = name)) fields) with
    | Some f => field_value f
    | None => get row0
    end.
Proof.
  intros Hset Hkeep. revert row0.
  induction fields as [|f fields IH]; intros row0.
  - by intros [= <-].
  - rewrite for_each_cons. intros (row1 & Hf & Hrest)%bind_Ok.
    rewrite (IH _ Hrest). simpl. case_bool_decide as Hname.
    + rewrite last_cons. destruct (last _); [done|]. by eapply Hset.
    + destruct (last _); [done|]. by eapply Hkeep.
Qed.

Lemma fit_field_keeps (get : Row → Value) (name : string) :
  (∀ v r, name ≠ "timestamp"%string → get (set_timestamp v r) = get r) →
  (∀ v r, name ≠ "heart_rate"%string → get (set_hr_bpm v r) = get r) →
  (∀ v r, name ≠ "power"%string → get (set_power_w v r) = get r) →
  (∀ v r, get (set_speed_kmh v r) = get r) →
  ∀ r f r', field_name f ≠ name → fit_field r f = Ok r' → get r' = get r.
Proof.
  intros Hts Hhr Hpw Hsp r f r' Hname Hf. unfold fit_field in Hf.
  case_bool_decide as H1; [injection Hf as <-; apply Hts; congruence|].
  case_bool_decide as H2; [injection Hf as <-; apply Hhr; congruence|].
  case_bool_decide as H3; [injection Hf as <-; apply Hpw; congruence|].
  case_bool_decide as H4; [|by injection Hf as <-].
  destruct (negb (is_none (field_value f))); [|by injection Hf as <-].
  apply bind_Ok in Hf as (g & _ & [= <-]). apply Hsp.
Qed.

Lemma fit_row_last_values (record : Message) (row : Row) :
  fit_row record = Ok row →
  timestamp row = last_value "timestamp" record
  ∧ hr_bpm row = last_value "heart_rate" record
  ∧ power_w row = last_value "power" record.
Proof.
  intros Hrow. unfold fit_row in Hrow. unfold last_value.
  split; [|split].
  - apply (for_each_fit_field_last "timestamp" timestamp record new_row row);
      [|apply fit_field_keeps; done|done].
    intros r [n v] r' Hname Hf. simpl in Hname. subst n.
    vm_compute in Hf. by injection Hf as <-.
  - apply (for_each_fit_field_last "heart_rate" hr_bpm record new_row row);
      [|apply fit_field_keeps; done|done].
    intros r [n v] r' Hname Hf. simpl in Hname. subst n.
    vm_compute in Hf. by injection Hf as <-.
  - apply (for_each_fit_field_last "power" power_w record new_row row);
      [|apply fit_field_keeps; done|done].
    intros r [n v] r' Hname Hf. simpl in Hname. subst n.
    vm_compute in Hf. by injection Hf as <-.
Qed.

(** X6. In the row of a record message, [timestamp], [hr_bpm] and [power_w]
    hold the last value given to the fields [timestamp], [heart_rate] and
    [power], a [None] included: a later [None] erases an earlier value,
    unlike for [speed]. The row is kept when that last timestamp is not
    [None]. *)
Theorem fit_row_keeps_last_values (record : Message) (row : Row) :
  fit_row record = Ok row →
  timestamp row = last_value "timestamp" record
  ∧ hr_bpm row = last_value "heart_rate" record
  ∧ power_w row = last_value "power" record
  ∧ (∀ rows, fit_record rows record
             = Ok (if is_none (last_value "timestamp" record)
                   then rows else rows ++ [row])).
Proof.
  intros Hrow. destruct (fit_row_last_values record row Hrow) as (Ht & Hh & Hp).
  repeat split; try done. intros rows. unfold fit_record.
  rewrite Hrow, ret_bind, Ht. by destruct (is_none _).
Qed.

Lemma fit_row_keeps_last_values_witness :
  let record := [ {| field_name := "heart_rate"; field_value := PInt 150 |};
                  {| field_name := "timestamp"; field_value := PDatetime 7 |};
                  {| field_name := "speed"; field_value := PFloat (S754_zero false) |};
                  {| field_name := "heart_rate"; field_value := PNone |};
                  {| field_name := "speed"; field_value := PNone |} ]%string in
  let row := {| timestamp := PDatetime 7; hr_bpm := PNone; power_w := PNone;
                speed_kmh := PFloat (S754_zero false) |} in
  fit_row record = Ok row
  ∧ hr_bpm row = last_value "heart_rate" record
  ∧ last_value "heart_rate" record = PNone.
Proof.
  intros record row.
  assert (fit_row record = Ok row) as Hrow by (vm_compute; reflexivity).
  split; [exact Hrow|]. split; [|vm_compute; reflexivity].
  exact (proj1 (proj2 (fit_row_keeps_last_values record row Hrow))).
Defined.

Lemma mapM_Raise {A B} (f : A → Result B) (l : list A) (e : Exception) :
  mapM f l = Raise e → ∃ x, x ∈ l ∧ f x = Raise e.
Proof.
  induction l as [|x l IH]; [done|]. rewrite mapM_cons.
  intros [Hx|(y & Hy & Hl)]%bind_Raise.
  - exists x. split; [left|done].
  - apply bind_Raise in Hl as [Hl|(k & _ & ?)]; [|done].
    destruct (IH Hl) as (x' & Hin & Hx'). exists x'. split; [by right|done].
Qed.

Lemma mapM_Ok_inv {A B} (f : A → Result B) (l : list A) (k : list B) :
  mapM f l = Ok k → Forall (λ x, ∃ y, f x = Ok y) l ∧ length k = length l.
Proof.
  intros HF%mapM_Ok_Forall2. split.
  - induction HF; constructor; eauto.
  - symmetry. by eapply Forall2_length.
Qed.

Lemma for_each_fit_field_raises (fields : list FieldData) (row0 : Row) e :
  for_each fit_field fields row0 = Raise e →
  ∃ f, f ∈ fields ∧ gives_speed f = true ∧ to_float (field_value f) = Raise e.
Proof.
  revert row0. induction fields as [|f fields IH]; intros row0; [done|].
  rewrite for_each_cons. intros [Hf|(row1 & _ & Hrest)]%bind_Raise.
  - exists f. split; [left|]. unfold fit_field, gives_speed in *.
    repeat (case_bool_decide; [done|]). case_bool_decide; [|done]. simpl.
    destruct (negb (is_none (field_value f))); [|done]. split; [done|].
    by apply bind_Raise in Hf as [Hf|(g & _ & ?)].
  - destruct (IH _ Hrest) as (f' & Hin & Hf'). exists f'.
    split; [by right|done].
Qed.

Lemma for_each_fit_field_returns (fields : list FieldData) (row0 : Row) :
  Forall (λ f, gives_speed f = true → ∃ g, to_float (field_value f) = Ok g)
    fields →
  ∃ row, for_each fit_field fields row0 = Ok row.
Proof.
  intros Hfields. revert row0.
  induction Hfields as [|f fields Hf _ IH]; intros row0; [by eexists|].
  rewrite for_each_cons.
  assert (∃ row1, fit_field row0 f = Ok row1) as [row1 ->].
  { unfold fit_field.
    destruct (bool_decide (field_name f = "timestamp"%string)); [by eexists|].
    destruct (bool_decide (field_name f = "heart_rate"%string)); [by eexists|].
    destruct (bool_decide (field_name f = "power"%string)); [by eexists|].
    destruct (bool_decide (field_name f = "speed"%string)) eqn:Hsp;
      [|by eexists].
    destruct (negb (is_none (field_value f))) eqn:Hv; [|by eexists].
    destruct Hf as [g ->]; [unfold gives_speed; by rewrite Hsp, Hv|].
    by eexists. }
  rewrite ret_bind. apply IH.
Qed.

(** The loop over the record messages makes the rows of all messages and
    keeps those with a timestamp. *)
Lemma for_each_fit_record_eq (records : list Message) (acc : list Row) :
  for_each fit_record records acc
  = all ← mapM fit_row records; Ok (acc ++ List.filter has_timestamp all).
Proof.
  revert acc. induction records as [|record records IH]; intros acc.
  - simpl. by rewrite app_nil_r.
  - rewrite for_each_cons, mapM_cons.
    change (fit_record acc record)
      with (row ← fit_row record;
            Ok (if has_timestamp row then acc ++ [row] else acc)).
    destruct (fit_row record) as [row|e]; [|done]. rewrite !ret_bind, IH.
    destruct (mapM fit_row records) as [all|e]; [|done]. rewrite !ret_bind.
    cbn [List.filter]. destruct (has_timestamp row); [|done].
    by rewrite <- app_assoc.
Qed.

Lemma dropna_timestamp_eq (df : DataFrame) :
  dropna ["timestamp"%string] df = Ok (List.filter valid_timestamp df).
Proof.
  unfold dropna. simpl. f_equal. apply filter_ext_in. intros r _.
  unfold complete, valid_timestamp. simpl. by rewrite andb_true_r.
Qed.

Section FitFurther.
Context `{Collaborators}.

Lemma fit_extracted_eq (file_bytes : list Byte.byte) :
  fit_extracted file_bytes
  = records ← fit_get_messages file_bytes;
    all ← mapM fit_row records;
    Ok (List.filter valid_timestamp
          (convert_timestamp <$> List.filter has_timestamp all)).
Proof.
  unfold fit_extracted.
  destruct (fit_get_messages file_bytes) as [records|e]; [|done].
  rewrite !ret_bind, for_each_fit_record_eq.
  destruct (mapM fit_row records) as [all|e]; [|done]. rewrite !ret_bind.
  by rewrite dropna_timestamp_eq.
Qed.

(** X7. [parse_fit_bytes] raises only what the decoder raises, or what
    [float] raises on a value of a field [speed] that is not [None]; when the
    decoder returns and every such value converts, it returns. *)
Theorem parse_fit_bytes_outcome (file_bytes : list Byte.byte) :
  (∀ e, parse_fit_bytes file_bytes = Raise e →
     fit_get_messages file_bytes = Raise e
     ∨ ∃ records record f,
         fit_get_messages file_bytes = Ok records
         ∧ record ∈ records ∧ f ∈ record
         ∧ gives_speed f = true ∧ to_float (field_value f) = Raise e)
  ∧ (∀ records,
       fit_get_messages file_bytes = Ok records →
       Forall (Forall (λ f, gives_speed f = true →
                            ∃ g, to_float (field_value f) = Ok g)) records →
       ∃ df, parse_fit_bytes file_bytes = Ok df).
Proof.
  rewrite parse_fit_bytes_extracted, fit_extracted_eq. split.
  - intros e. destruct (fit_get_messages file_bytes) as [records|e0];
      [|intros [= <-]; by left].
    rewrite !ret_bind.
    destruct (mapM fit_row records) as [all|e1] eqn:Hall; [done|].
    intros [= <-]. right.
    apply mapM_Raise in Hall as (record & Hin & Hrow).
    apply for_each_fit_field_raises in Hrow as (f & Hf & Hsp & Hfloat).
    by exists records, record, f.
  - intros records -> Hrecords. rewrite !ret_bind.
    destruct (mapM_Ok_total fit_row records) as [all ->]; [|by eexists].
    eapply Forall_impl; [exact Hrecords|]. intros record Hrecord.
    by apply for_each_fit_field_returns.
Qed.

Lemma filter_length_le {A} (p : A → bool) (l : list A) :
  (length (List.filter p l) ≤ length l)%nat.
Proof. induction l as [|x l IH]; simpl; [done|]. destruct (p x); simpl; lia. Qed.

(** X8. With an [argsort] that sorts, the DataFrame of a FIT file has
    exactly one line for each record message that has a timestamp which
    [to_datetime] converts, and no other line: no message is lost or
    repeated, and there are at most as many lines as messages. *)
Theorem fit_frame_has_one_line_per_dated_message (file_bytes : list Byte.byte)
    (df : DataFrame) :
  argsort_spec argsort →
  parse_fit_bytes file_bytes = Ok df →
  ∃ records all,
    fit_get_messages file_bytes = Ok records
    ∧ mapM fit_row records = Ok all
    ∧ df ≡ₚ List.filter valid_timestamp
              (convert_timestamp <$> List.filter has_timestamp all)
    ∧ (length df ≤ length records)%nat.
Proof.
  intros Hsort. rewrite parse_fit_bytes_extracted.
  intros (rows & Hrows & [= <-])%bind_Ok.
  pose proof (fit_extracted_present _ _ Hrows) as Hpresent.
  destruct (sort_values_sorted rows Hsort Hpresent) as [Hperm _].
  rewrite fit_extracted_eq in Hrows.
  apply bind_Ok in Hrows as (records & Hrecords & Hrows).
  apply bind_Ok in Hrows as (all & Hall & [= <-]).
  exists records, all. repeat split; try done.
  rewrite Hperm. apply mapM_Ok_inv in Hall as [_ <-].
  etrans; [apply filter_length_le|]. rewrite length_fmap.
  apply filter_length_le.
Qed.

(** X9. The speed series of the DataFrame of a FIT file always has a
    result: its [speed_kmh] cells are floats or missing, and [float] accepts
    them. *)
Theorem fit_speed_series_returns (file_bytes : list Byte.byte) (df : DataFrame)
    (fn : string) :
  parse_fit_bytes file_bytes = Ok df →
  Forall (λ r, speed_kmh r = PNone ∨ ∃ g, speed_kmh r = PFloat g) df
  ∧ ∃ a, dataframe_to_apex_series df "speed_kmh" fn = Ok a.
Proof.
  intros Hdf.
  assert (Forall (λ r, speed_kmh r = PNone ∨ ∃ g, speed_kmh r = PFloat g) df)
    as Hcells.
  { apply Forall_forall. intros r Hr.
    destruct (parse_fit_bytes_rows _ _ _ Hdf Hr)
      as (records & record & row & _ & _ & Hrow & -> & _). simpl.
    destruct (fit_row_speed record row Hrow) as [Hnone Hsome].
    destruct (decide (raw_speed record = PNone)) as [Hraw|Hraw]; [left; auto|].
    right. destruct (Hsome Hraw) as (g & _ & ->). by eexists. }
  split; [done|]. rewrite dataframe_to_apex_series_eq by done.
  destruct (mapM_Ok_total (point_of "speed_kmh")
              (List.filter (carries "speed_kmh") df)) as [ps ->];
    [|by eexists].
  apply Forall_forall. intros r [Hin Hr]%list_elem_of_In%filter_In.
  apply list_elem_of_In in Hin. rewrite Forall_forall in Hcells.
  apply carries_inv in Hr as (_ & v & Hv & Hna).
  rewrite (point_of_carried _ _ _ Hv).
  change (Some (speed_kmh r) = Some v) in Hv. injection Hv as <-.
  destruct (Hcells r Hin) as [Hnone|[g Hg]].
  - by rewrite Hnone in Hna.
  - rewrite Hg. by eexists.
Qed.

End FitFurther.

(** ** The TCX extractor, further *)

Lemma for_each_Raise {A S} (body : S → A → Result S) (xs : list A) (acc : S) e :
  for_each body xs acc = Raise e → ∃ x s, x ∈ xs ∧ body s x = Raise e.
Proof.
  revert acc. induction xs as [|x xs IH]; intros acc; [done|].
  rewrite for_each_cons. intros [Hx|(s & _ & Hrest)]%bind_Raise.
  - exists x, acc. split; [left|done].
  - destruct (IH _ Hrest) as (x' & s' & Hin & Hx'). exists x', s'.
    split; [by right|done].
Qed.

Lemma for_each_returns {A S} (body : S → A → Result S) (xs : list A) (acc : S) :
  (∀ x s, x ∈ xs → ∃ s', body s x = Ok s') → ∃ s', for_each body xs acc = Ok s'.
Proof.
  revert acc. induction xs as [|x xs IH]; intros acc Hxs; [by eexists|].
  rewrite for_each_cons. destruct (Hxs x acc) as [s' ->]; [left|].
  rewrite ret_bind. apply IH. intros x' s Hin. apply Hxs. by right.
Qed.

Lemma for_each_length {A B} (body : list B → A → Result (list B))
    (xs : list A) (acc rows : list B) :
  (∀ x s s', body s x = Ok s' → (length s' ≤ S (length s))%nat) →
  for_each body xs acc = Ok rows →
  (length rows ≤ length acc + length xs)%nat.
Proof.
  intros Hbody. revert acc. induction xs as [|x xs IH]; intros acc.
  - intros [= <-]. simpl. lia.
  - rewrite for_each_cons. intros (s & Hx & Hrest)%bind_Ok.
    apply Hbody in Hx. apply IH in Hrest. simpl. lia.
Qed.

Section TcxFurther.
Context `{Collaborators}.

Lemma tcx_trackpoint_raises (root tp : Element) (rows : list Row) e :
  tcx_trackpoint (normalize_tcx_nsmap root) rows tp = Raise e →
  e = OverflowError
  ∧ ∃ s, get_first_xpath_text tp
           [("tcx", "HeartRateBpm"); ("tcx", "Value")]%string
           (normalize_tcx_nsmap root) = Ok (Some s)
       ∧ denotes_infinity s.
Proof.
  unfold tcx_trackpoint.
  destruct (get_first_xpath_text_tcx tp root ["Time"%string]) as [t Ht].
  simpl in Ht. rewrite Ht, ret_bind.
  destruct t as [time_text|]; [|done]. case_bool_decide; [done|].
  destruct (to_datetime (PStr time_text)); [|done].
  destruct (get_first_xpath_text_tcx tp root ["HeartRateBpm"; "Value"]%string)
    as [hr_text Hhr].
  simpl in Hhr. rewrite Hhr, ret_bind.
  intros [Hsafe|(hr & _ & ?)]%bind_Raise; [|done].
  apply safe_int_raises in Hsafe as (-> & s & -> & Hs). eauto.
Qed.

Lemma tcx_trackpoint_returns (root tp : Element) (rows : list Row) :
  (∀ s, get_first_xpath_text tp
          [("tcx", "HeartRateBpm"); ("tcx", "Value")]%string
          (normalize_tcx_nsmap root) = Ok (Some s) → ¬ denotes_infinity s) →
  ∃ rows', tcx_trackpoint (normalize_tcx_nsmap root) rows tp = Ok rows'.
Proof.
  intros Hfinite.
  destruct (tcx_trackpoint (normalize_tcx_nsmap root) rows tp)
    as [rows'|e] eqn:Htp; [by eexists|].
  apply tcx_trackpoint_raises in Htp as (_ & s & Hs & Hinf).
  by destruct (Hfinite s).
Qed.

Lemma xpath_all_descendant (root tp : Element) (q : QName)
    (nsmap : gmap string string) (tps : list Element) :
  xpath_all root q nsmap = Ok tps → tp ∈ tps → tp ∈ descendants_or_self root.
Proof.
  unfold xpath_all. intros (n & _ & [= <-])%bind_Ok Hin.
  by apply list_elem_of_In, filter_In in Hin as [?%list_elem_of_In _].
Qed.

(** X10. [parse_tcx_bytes] raises only what the XML parser raises, or
    [OverflowError] for a trackpoint with a valid time whose heart-rate text
    denotes an infinity; when the parser returns and no element of the
    document has such a heart-rate text, it returns. *)
Theorem parse_tcx_bytes_outcome (file_bytes : list Byte.byte) :
  (∀ e, parse_tcx_bytes file_bytes = Raise e →
     xml_fromstring file_bytes = Raise e
     ∨ (e = OverflowError
        ∧ ∃ root tp s,
            xml_fromstring file_bytes = Ok root
            ∧ tp ∈ descendants_or_self root
            ∧ get_first_xpath_text tp
                [("tcx", "HeartRateBpm"); ("tcx", "Value")]%string
                (normalize_tcx_nsmap root) = Ok (Some s)
            ∧ denotes_infinity s))
  ∧ (∀ root,
       xml_fromstring file_bytes = Ok root →
       (∀ tp s, tp ∈ descendants_or_self root →
                get_first_xpath_text tp
                  [("tcx", "HeartRateBpm"); ("tcx", "Value")]%string
                  (normalize_tcx_nsmap root) = Ok (Some s) →
                ¬ denotes_infinity s) →
       ∃ df, parse_tcx_bytes file_bytes = Ok df).
Proof.
  rewrite parse_tcx_bytes_extracted. unfold tcx_extracted. split.
  - intros e. destruct (xml_fromstring file_bytes) as [root|e0];
      [|intros [= <-]; by left].
    rewrite !ret_bind.
    destruct (xpath_all_tcx root root "Trackpoint") as (uri & _ & Htps).
    rewrite Htps, !ret_bind.
    destruct (for_each _ _ []) as [rows|e1] eqn:Hrows.
    { rewrite !ret_bind, dropna_timestamp_eq. done. }
    intros [= <-]. right.
    apply for_each_Raise in Hrows as (tp & rows & Hin & Htp).
    apply tcx_trackpoint_raises in Htp as (-> & s & Hs & Hinf).
    split; [done|]. exists root, tp, s. repeat split; try done.
    by eapply xpath_all_descendant.
  - intros root -> Hfinite. rewrite !ret_bind.
    destruct (xpath_all_tcx root root "Trackpoint") as (uri & _ & Htps).
    rewrite Htps, !ret_bind.
    destruct (for_each_returns (tcx_trackpoint (normalize_tcx_nsmap root))
                (List.filter (has_name (uri, "Trackpoint"%string))
                   (descendants_or_self root)) []) as [rows ->].
    + intros tp rows Hin. apply tcx_trackpoint_returns. intros s.
      apply Hfinite. by eapply xpath_all_descendant.
    + rewrite !ret_bind, dropna_timestamp_eq. by eexists.
Qed.

(** X11. A document in which no element named [Trackpoint] is in the
    namespace bound to [tcx] gives the empty DataFrame; this is the case of
    a document that declares no namespace, whose elements are in none: the
    fallback to the TCX v2 namespace makes the query run, not match. *)
Theorem tcx_without_matching_namespace_is_empty (file_bytes : list Byte.byte)
    (root : Element) :
  xml_fromstring file_bytes = Ok root →
  (Forall (λ e, el_tag e = "Trackpoint"%string →
                el_ns e ≠ normalize_tcx_nsmap root !! "tcx"%string)
     (descendants_or_self root) →
   parse_tcx_bytes file_bytes = Ok [])
  ∧ (Forall (λ e, el_ns e = None) (descendants_or_self root) →
     parse_tcx_bytes file_bytes = Ok []).
Proof.
  intros Hroot.
  assert (Forall (λ e, el_tag e = "Trackpoint"%string →
                       el_ns e ≠ normalize_tcx_nsmap root !! "tcx"%string)
            (descendants_or_self root) →
          parse_tcx_bytes file_bytes = Ok []) as Hgeneral.
  { intros Hnone. eapply parse_tcx_bytes_no_trackpoints; [done|].
    destruct (xpath_all_tcx root root "Trackpoint") as (uri & Huri & ->).
    f_equal. apply filter_none. eapply Forall_impl; [exact Hnone|].
    intros e He. unfold has_name. simpl. apply bool_decide_eq_false.
    intros [Hns Htag]. apply (He Htag). by rewrite Huri. }
  split; [done|]. intros Hnons. apply Hgeneral.
  eapply Forall_impl; [exact Hnons|]. intros e -> _.
  by destruct (normalize_tcx_nsmap_tcx root) as [uri ->].
Qed.

Lemma tcx_trackpoint_length (nsmap : gmap string string) (tp : Element)
    (s s' : list Row) :
  tcx_trackpoint nsmap s tp = Ok s' → (length s' ≤ S (length s))%nat.
Proof.
  intros [->|(r & -> & _)]%tcx_trackpoint_rows; [lia|].
  rewrite length_app. simpl. lia.
Qed.

(** X12. With an [argsort] that sorts, the DataFrame of a TCX file has at
    most one line per trackpoint of the document, and the timestamp of every
    line is a datetime. *)
Theorem tcx_frame_has_at_most_one_line_per_trackpoint
    (file_bytes : list Byte.byte) (df : DataFrame) :
  argsort_spec argsort →
  parse_tcx_bytes file_bytes = Ok df →
  ∃ root tps,
    xml_fromstring file_bytes = Ok root
    ∧ xpath_all root ("tcx", "Trackpoint")%string (normalize_tcx_nsmap root)
      = Ok tps
    ∧ (length df ≤ length tps)%nat
    ∧ Forall (λ r, ∃ t, timestamp r = PDatetime t) df.
Proof.
  intros Hsort Hdf.
  assert (Forall (λ r, ∃ t, timestamp r = PDatetime t) df) as Hdates.
  { apply Forall_forall. intros r Hr.
    destruct (parse_tcx_bytes_rows _ _ _ Hdf Hr)
      as (root & tps & tp & _ & _ & _ & Hrow).
    destruct Hrow as (? & t & ? & ? & _ & _ & _ & _ & ->). by exists t. }
  rewrite parse_tcx_bytes_extracted in Hdf.
  apply bind_Ok in Hdf as (rows & Hrows & [= <-]).
  pose proof (tcx_extracted_present _ _ Hrows) as Hpresent.
  destruct (sort_values_sorted rows Hsort Hpresent) as [Hperm _].
  unfold tcx_extracted in Hrows.
  apply bind_Ok in Hrows as (root & Hroot & Hrows).
  apply bind_Ok in Hrows as (tps & Htps & Hrows).
  apply bind_Ok in Hrows as (rows0 & Hrows0 & Hdrop).
  exists root, tps. repeat split; try done.
  rewrite Hperm. rewrite dropna_timestamp_eq in Hdrop. injection Hdrop as <-.
  etrans; [apply filter_length_le|].
  apply for_each_length in Hrows0; [simpl in Hrows0; lia|].
  intros tp s s'. apply tcx_trackpoint_length.
Qed.

End TcxFurther.

(** ** The series projector, further *)

Lemma point_of_fst (col : string) (r : Row) (p : Z * float) :
  point_of col r = Ok p → p.1 = astype_int64 (timestamp r) `div` 1000000.
Proof.
  unfold point_of. destruct (column col r) as [v|]; [|done].
  by intros (f & _ & [= <-])%bind_Ok.
Qed.

Lemma StronglySorted_fmap_filter {A} (R : relation Z) (f : A → Z)
    (p : A → bool) (l : list A) :
  StronglySorted R (f <$> l) → StronglySorted R (f <$> List.filter p l).
Proof.
  induction l as [|x l IH]; [done|]. rewrite fmap_cons.
  intros [Hx Hl]%StronglySorted_cons. cbn [List.filter].
  destruct (p x); [|by apply IH]. rewrite fmap_cons.
  apply StronglySorted_cons. split; [|by apply IH].
  rewrite Forall_fmap in *. apply Forall_forall.
  intros y [Hy _]%list_elem_of_In%filter_In.
  rewrite Forall_forall in Hx. by apply Hx, list_elem_of_In.
Qed.

Lemma projector_keeps_order (df : DataFrame) (col fn : string) (a : Series) :
  is_column col = true →
  timestamps_sorted df →
  dataframe_to_apex_series df col fn = Ok a →
  Sorted Z.le ((data a).*1).
Proof.
  intros Hcol Hsorted. rewrite dataframe_to_apex_series_eq by done.
  intros (ps & Hps & [= <-])%bind_Ok. simpl.
  apply mapM_Ok_Forall2 in Hps.
  assert (ps.*1 = (λ k, k `div` 1000000)
                    <$> ((λ r, astype_int64 (timestamp r))
                           <$> List.filter (carries col) df)) as ->.
  { rewrite <- list_fmap_compose.
    induction Hps as [|r p l k Hp _ IH]; [done|].
    rewrite !fmap_cons, IH. f_equal. by apply point_of_fst in Hp. }
  apply StronglySorted_Sorted.
  apply (StronglySorted_fmap _ Z.le Z.le).
  - intros x y Hxy. by apply Z.div_le_mono.
  - apply StronglySorted_fmap_filter.
    apply (Sorted_StronglySorted Z.le). exact Hsorted.
Qed.

(** X13. For a name that is not a column the projector returns the series
    without points on the empty DataFrame and raises [KeyError] on any
    other; for the column [timestamp] it raises [TypeError] as soon as a
    line has a datetime, since [float] refuses a datetime. *)
Theorem projector_on_other_columns (df : DataFrame) (col fn : string) :
  (is_column col = false →
     dataframe_to_apex_series [] col fn = Ok {| name := fn; data := [] |}
     ∧ (df ≠ [] → dataframe_to_apex_series df col fn = Raise KeyError))
  ∧ (df ≠ [] → Forall (λ r, ∃ t, timestamp r = PDatetime t) df →
     dataframe_to_apex_series df "timestamp" fn = Raise TypeError).
Proof.
  split.
  - intros Hcol. split; [done|]. intros Hdf.
    unfold dataframe_to_apex_series, dropna. destruct df as [|r df]; [done|].
    simpl. by rewrite Hcol.
  - intros Hdf Hdates. rewrite dataframe_to_apex_series_eq by done.
    rewrite filter_all.
    + destruct Hdates as [|r df' [t Ht] _]; [done|].
      rewrite mapM_cons.
      rewrite (point_of_carried "timestamp" r (timestamp r) eq_refl), Ht.
      done.
    + eapply Forall_impl; [exact Hdates|]. intros r [t Ht].
      unfold carries, complete. simpl.
      change (column "timestamp" r) with (Some (timestamp r)).
      by rewrite Ht.
Qed.

Lemma projector_on_other_columns_witness :
  let df := [ {| timestamp := PDatetime 5000000000; hr_bpm := PInt 150;
                 power_w := PNone; speed_kmh := PNone |} ] in
  is_column "cadence" = false
  ∧ dataframe_to_apex_series df "cadence" "f.fit" = Raise KeyError
  ∧ dataframe_to_apex_series df "timestamp" "f.fit" = Raise TypeError.
Proof.
  intros df.
  assert (is_column "cadence" = false) as Hcol by (vm_compute; reflexivity).
  assert (df ≠ []) as Hdf by discriminate.
  split; [exact Hcol|]. split.
  - exact (proj2 (proj1 (projector_on_other_columns df "cadence" "f.fit") Hcol)
             Hdf).
  - apply (proj2 (projector_on_other_columns df "cadence" "f.fit") Hdf).
    constructor; [|constructor]. by exists 5000000000.
Defined.

Section Chart.
Context `{Collaborators}.

Lemma extract_sorted (fn : string) (file_bytes : list Byte.byte)
    (df : DataFrame) :
  argsort_spec argsort →
  extract_dataframe_from_file fn file_bytes = Ok df →
  timestamps_sorted df.
Proof.
  intros Hsort. unfold extract_dataframe_from_file.
  destruct (endswith (lower fn) ".fit").
  - rewrite parse_fit_bytes_extracted.
    intros (rows & Hrows & [= <-])%bind_Ok.
    by apply sort_values_sorted, (fit_extracted_present file_bytes).
  - destruct (endswith (lower fn) ".tcx").
    + rewrite parse_tcx_bytes_extracted.
      intros (rows & Hrows & [= <-])%bind_Ok.
      by apply sort_values_sorted, (tcx_extracted_present file_bytes).
    + intros [= <-]. constructor.
Qed.

(** X14. The projector keeps the order of the lines: on a DataFrame sorted
    by timestamp, the points of a series are in non-decreasing order of time.
    With an [argsort] that sorts, this holds of every series a file adds to
    a response. *)
Theorem series_points_in_time_order (metric : string) :
  (∀ (df : DataFrame) (fn : string) (a : Series),
     is_column metric = true →
     timestamps_sorted df →
     dataframe_to_apex_series df metric fn = Ok a →
     Sorted Z.le ((data a).*1))
  ∧ (∀ (f : UploadFile) (a : Series),
       argsort_spec argsort →
       metric ∈ SUPPORTED_METRICS →
       a ∈ contribution metric f →
       Sorted Z.le ((data a).*1)).
Proof.
  split.
  - intros df fn a. apply projector_keeps_order.
  - intros f a Hsort Hmetric. unfold contribution.
    destruct (extract_dataframe_from_file _ _) as [df|e] eqn:Hdf;
      [|by intros ?%elem_of_nil].
    destruct (empty df); [by intros ?%elem_of_nil|].
    destruct (dataframe_to_apex_series df metric _) as [a'|e] eqn:Ha;
      [|by intros ?%elem_of_nil].
    unfold if_has_points.
    destruct (data a') eqn:Hdata; [by intros ?%elem_of_nil|].
    intros ->%list_elem_of_singleton.
    eapply projector_keeps_order; [|by eapply extract_sorted|exact Ha].
    by apply supported_is_column.
Qed.

End Chart.

Lemma series_points_in_time_order_witness :
  let C := Sample.collaborators in
  let f := {| filename := Some "b.tcx"%string; content := two_trackpoints |} in
  let a := {| name := "b.tcx";
              data := [(3000, S754_finite false 5066549580791808 (-46));
                       (5000, S754_finite false 4925812092436480 (-45))] |} in
  argsort_spec (@argsort C)
  ∧ ("hr_bpm" ∈ SUPPORTED_METRICS)%string
  ∧ a ∈ @contribution C "hr_bpm" f
  ∧ Sorted Z.le ((data a).*1).
Proof.
  intros C f a.
  assert (argsort_spec (@argsort C)) as Hsort
    by exact SampleFacts.argsort_stable_spec.
  assert ("hr_bpm" ∈ SUPPORTED_METRICS)%string as Hm by (left; reflexivity).
  assert (a ∈ @contribution C "hr_bpm" f) as Ha.
  { replace (@contribution C "hr_bpm" f) with [a] by (vm_compute; reflexivity).
    left. }
  split; [exact Hsort|]. split; [exact Hm|]. split; [exact Ha|].
  exact (proj2 (@series_points_in_time_order C "hr_bpm") f a Hsort Hm Ha).
Defined.

(** ** The batch aggregator, further *)

Lemma add_metric_returns (df : DataFrame) (fn metric : string)
    (s : gmap string (list Series)) (a : Series) :
  is_Some (s !! metric) →
  dataframe_to_apex_series df metric fn = Ok a →
  ∃ s', add_metric df fn s metric = Ok s'.
Proof.
  intros [l Hl] Ha. unfold add_metric. rewrite Ha, ret_bind, Hl.
  destruct (data a); by eexists.
Qed.

Lemma add_metric_raises (df : DataFrame) (fn metric : string)
    (s : gmap string (list Series)) (e : Exception) :
  is_Some (s !! metric) →
  add_metric df fn s metric = Raise e →
  dataframe_to_apex_series df metric fn = Raise e.
Proof.
  intros [l Hl]. unfold add_metric.
  destruct (dataframe_to_apex_series df metric fn) as [a|e'];
    [|by intros [= ->]].
  rewrite ret_bind, Hl. by destruct (data a).
Qed.

Lemma for_each_add_metric_returns (df : DataFrame) (fn : string)
    (ms : list string) (s : gmap string (list Series)) :
  (∀ m, m ∈ ms → is_Some (s !! m)) →
  (∀ m, m ∈ ms → ∃ a, dataframe_to_apex_series df m fn = Ok a) →
  ∃ s', for_each (add_metric df fn) ms s = Ok s'.
Proof.
  revert s. induction ms as [|m ms IH]; intros s Hs Hms; [by eexists|].
  rewrite for_each_cons.
  destruct (Hms m) as [a Ha]; [left|].
  destruct (add_metric_returns df fn m s a) as [s1 Hs1]; [apply Hs; left|done|].
  rewrite Hs1, ret_bind. apply IH.
  - intros m' Hm'. apply elem_of_dom. rewrite (add_metric_dom _ _ _ _ _ Hs1).
    apply elem_of_dom, Hs. by right.
  - intros m' Hm'. apply Hms. by right.
Qed.

Lemma for_each_add_metric_projected (df : DataFrame) (fn : string)
    (ms : list string) (s s' : gmap string (list Series)) :
  for_each (add_metric df fn) ms s = Ok s' →
  ∀ m, m ∈ ms → ∃ a, dataframe_to_apex_series df m fn = Ok a.
Proof.
  revert s. induction ms as [|m0 ms IH]; intros s; [by intros _ m ?%elem_of_nil|].
  rewrite for_each_cons. intros (s1 & Hs1 & Hrest)%bind_Ok m.
  intros [->|Hm]%elem_of_cons; [|by eapply IH].
  apply add_metric_Ok in Hs1 as (a & Ha & _). by exists a.
Qed.

Lemma for_each_add_metric_raises (df : DataFrame) (fn : string)
    (ms : list string) (s : gmap string (list Series)) (e : Exception) :
  (∀ m, m ∈ ms → is_Some (s !! m)) →
  for_each (add_metric df fn) ms s = Raise e →
  ∃ m, m ∈ ms ∧ dataframe_to_apex_series df m fn = Raise e.
Proof.
  revert s. induction ms as [|m0 ms IH]; intros s Hs; [done|].
  rewrite for_each_cons. intros [Hm0|(s1 & Hs1 & Hrest)]%bind_Raise.
  - exists m0. split; [left|]. eapply add_metric_raises; [|done].
    apply Hs. left.
  - destruct (IH s1) as (m & Hm & He); [|done|].
    + intros m' Hm'. apply elem_of_dom.
      rewrite (add_metric_dom _ _ _ _ _ Hs1). apply elem_of_dom, Hs.
      by right.
    + exists m. split; [by right|done].
Qed.

Section BatchFurther.
Context `{Collaborators}.

Lemma lower_file_unsupported (file_bytes : list Byte.byte) :
  extract_dataframe_from_file "file" file_bytes = Ok [].
Proof. by apply extract_unsupported. Qed.

(** X15. An upload without a filename, or with the empty filename, is
    named [file]; that name has no supported suffix, so the upload is
    skipped whatever its content. *)
Theorem upload_without_filename_is_skipped (f : UploadFile)
    (pre post : list UploadFile) :
  filename f = None ∨ filename f = Some ""%string →
  filename_or_file f = "file"%string
  ∧ extract_dataframe_from_file (filename_or_file f) (content f) = Ok []
  ∧ parse_activity_files (pre ++ f :: post) = parse_activity_files (pre ++ post).
Proof.
  intros Hname.
  assert (filename_or_file f = "file"%string) as Hfile.
  { unfold filename_or_file. by destruct Hname as [-> | ->]. }
  split; [done|].
  assert (extract_dataframe_from_file (filename_or_file f) (content f) = Ok [])
    as Hempty by (rewrite Hfile; apply lower_file_unsupported).
  split; [done|]. by apply parse_activity_files_skip.
Qed.

Lemma add_file_returns (f : UploadFile) (s : gmap string (list Series)) :
  (∀ m, m ∈ SUPPORTED_METRICS → is_Some (s !! m)) →
  file_ok f → ∃ s', add_file s f = Ok s'.
Proof.
  intros Hs (df & Hdf & Hproj). unfold add_file. rewrite Hdf, ret_bind.
  destruct (empty df) eqn:Hempty; [by eexists|].
  destruct Hproj as [?|Hproj]; [done|].
  by apply for_each_add_metric_returns.
Qed.

Lemma add_file_file_ok (f : UploadFile) (s s' : gmap string (list Series)) :
  add_file s f = Ok s' → file_ok f.
Proof.
  unfold add_file. intros (df & Hdf & Hs')%bind_Ok. exists df.
  split; [done|]. destruct (empty df); [by left|]. right.
  by eapply for_each_add_metric_projected.
Qed.

Lemma for_each_add_file_returns_iff (files : list UploadFile)
    (s : gmap string (list Series)) :
  (∀ m, m ∈ SUPPORTED_METRICS → is_Some (s !! m)) →
  (∃ s', for_each add_file files s = Ok s') ↔ Forall file_ok files.
Proof.
  revert s. induction files as [|f files IH]; intros s Hs.
  - split; [constructor|by eexists].
  - rewrite for_each_cons. split.
    + intros [s' (s1 & Hs1 & Hrest)%bind_Ok]. constructor.
      * by eapply add_file_file_ok.
      * apply (IH s1); [|by eexists]. intros m Hm. apply elem_of_dom.
        rewrite (add_file_dom _ _ _ Hs1). by apply elem_of_dom, Hs.
    + intros [Hf Hfiles]%Forall_cons.
      destruct (add_file_returns f s Hs Hf) as [s1 Hs1].
      rewrite Hs1, ret_bind. apply IH; [|done]. intros m Hm.
      apply elem_of_dom. rewrite (add_file_dom _ _ _ Hs1).
      by apply elem_of_dom, Hs.
Qed.

Lemma init_series_response_supported (m : string) :
  m ∈ SUPPORTED_METRICS → is_Some (init_series_response !! m).
Proof. intros Hm. rewrite init_series_response_lookup by done. by eexists. Qed.

Lemma parse_activity_files_returns_iff (files : list UploadFile) :
  (∃ r, parse_activity_files files = Ok r) ↔ Forall file_ok files.
Proof.
  rewrite <- (for_each_add_file_returns_iff files init_series_response
                init_series_response_supported).
  unfold parse_activity_files. split.
  - intros [r (s & Hs & _)%bind_Ok]. by exists s.
  - intros [s ->]. by eexists.
Qed.

Lemma parse_activity_files_series (files : list UploadFile) (r : Response)
    (m : string) :
  parse_activity_files files = Ok r → m ∈ SUPPORTED_METRICS →
  series r !! m = Some (files ≫= contribution m).
Proof.
  unfold parse_activity_files. intros (s & Hs & [= <-])%bind_Ok Hm. simpl.
  rewrite (for_each_add_file_Ok _ _ _ Hs m Hm).
  by rewrite (init_series_response_lookup m Hm).
Qed.

(** X16. A batch has a response exactly when each of its files can be
    extracted and, if it has lines, projected on the three metrics: no other
    step of the aggregation can fail. *)
Theorem batch_returns_iff_every_file_does (files : list UploadFile) :
  (∃ r, parse_activity_files files = Ok r) ↔ Forall file_ok files.
Proof. apply parse_activity_files_returns_iff. Qed.

(** X17. Batches compose: the concatenation of two batches has a response
    exactly when both have, and then the collection of each metric is that
    of the first batch followed by that of the second. *)
Theorem batches_compose (xs ys : list UploadFile) :
  ((∃ r, parse_activity_files (xs ++ ys) = Ok r)
   ↔ (∃ r1, parse_activity_files xs = Ok r1)
     ∧ (∃ r2, parse_activity_files ys = Ok r2))
  ∧ (∀ r1 r2 r metric,
       parse_activity_files xs = Ok r1 →
       parse_activity_files ys = Ok r2 →
       parse_activity_files (xs ++ ys) = Ok r →
       metric ∈ SUPPORTED_METRICS →
       ∃ l1 l2, series r1 !! metric = Some l1
         ∧ series r2 !! metric = Some l2
         ∧ series r !! metric = Some (l1 ++ l2)).
Proof.
  split.
  - rewrite !parse_activity_files_returns_iff. apply Forall_app.
  - intros r1 r2 r metric H1 H2 H12 Hm.
    exists (xs ≫= contribution metric), (ys ≫= contribution metric).
    rewrite (parse_activity_files_series _ _ _ H1 Hm).
    rewrite (parse_activity_files_series _ _ _ H2 Hm).
    rewrite (parse_activity_files_series _ _ _ H12 Hm).
    by rewrite bind_app.
Qed.

Lemma for_each_add_file_raises (files : list UploadFile)
    (s : gmap string (list Series)) (e : Exception) :
  (∀ m, m ∈ SUPPORTED_METRICS → is_Some (s !! m)) →
  for_each add_file files s = Raise e →
  ∃ f, f ∈ files
    ∧ (extract_dataframe_from_file (filename_or_file f) (content f) = Raise e
       ∨ ∃ df m,
           extract_dataframe_from_file (filename_or_file f) (content f) = Ok df
           ∧ m ∈ SUPPORTED_METRICS
           ∧ dataframe_to_apex_series df m (filename_or_file f) = Raise e).
Proof.
  revert s. induction files as [|f files IH]; intros s Hs; [done|].
  rewrite for_each_cons. intros [Hf|(s1 & Hs1 & Hrest)]%bind_Raise.
  - exists f. split; [left|]. unfold add_file in Hf.
    apply bind_Raise in Hf as [Hf|(df & Hdf & Hf)]; [by left|]. right.
    destruct (empty df); [done|].
    apply for_each_add_metric_raises in Hf as (m & Hm & He); [|done].
    by exists df, m.
  - destruct (IH s1) as (f' & Hin & Hf'); [|done|].
    + intros m Hm. apply elem_of_dom. rewrite (add_file_dom _ _ _ Hs1).
      by apply elem_of_dom, Hs.
    + exists f'. split; [by right|done].
Qed.

(** X18. What a batch raises is what the extraction of one of its files
    raises, or what the projection of the DataFrame of one of its files on
    a supported metric raises; the aggregation itself raises nothing, a
    [KeyError] on the collections in particular. *)
Theorem batch_raises_what_a_file_raises (files : list UploadFile)
    (e : Exception) :
  parse_activity_files files = Raise e →
  ∃ f, f ∈ files
    ∧ (extract_dataframe_from_file (filename_or_file f) (content f) = Raise e
       ∨ ∃ df m,
           extract_dataframe_from_file (filename_or_file f) (content f) = Ok df
           ∧ m ∈ SUPPORTED_METRICS
           ∧ dataframe_to_apex_series df m (filename_or_file f) = Raise e).
Proof.
  unfold parse_activity_files. intros [Hs|(s & _ & ?)]%bind_Raise; [|done].
  eapply for_each_add_file_raises; [|exact Hs].
  apply init_series_response_supported.
Qed.

End BatchFurther.

(** ** The further statements at concrete inputs *)

Lemma parse_fit_bytes_outcome_witness :
  let C := Sample.collaborators in
  let records := [Sample.fit_message x05 x96 xff x05] in
  @fit_get_messages C one_record = Ok records
  ∧ Forall (Forall (λ f, gives_speed f = true →
                         ∃ g, to_float (field_value f) = Ok g)) records
  ∧ ∃ df, @parse_fit_bytes C one_record = Ok df.
Proof.
  intros C records.
  assert (@fit_get_messages C one_record = Ok records) as Hrecords
    by (vm_compute; reflexivity).
  assert (Forall (Forall (λ f, gives_speed f = true →
                               ∃ g, to_float (field_value f) = Ok g)) records)
    as Hconv.
  { repeat constructor; intros Hsp; try (vm_compute in Hsp; discriminate Hsp).
    eexists. vm_compute. reflexivity. }
  split; [exact Hrecords|]. split; [exact Hconv|].
  exact (proj2 (@parse_fit_bytes_outcome C one_record) records Hrecords Hconv).
Defined.

Lemma fit_frame_has_one_line_per_dated_message_witness :
  let C := Sample.collaborators in
  let payload := [x0e; x05; x96; xff; x05; xff; x10; x11; x01] in
  argsort_spec (@argsort C)
  ∧ ∃ df records, @parse_fit_bytes C payload = Ok df
      ∧ @fit_get_messages C payload = Ok records
      ∧ length df = 1%nat ∧ length records = 2%nat
      ∧ (length df ≤ length records)%nat.
Proof.
  intros C payload.
  assert (argsort_spec (@argsort C)) as Hsort
    by exact SampleFacts.argsort_stable_spec.
  split; [exact Hsort|].
  destruct (@parse_fit_bytes C payload) as [df|e] eqn:Hdf;
    [|vm_compute in Hdf; discriminate Hdf].
  destruct (@fit_frame_has_one_line_per_dated_message C payload df Hsort Hdf)
    as (records & all & Hrecords & _ & _ & Hlen).
  exists df, records. split; [reflexivity|]. split; [exact Hrecords|].
  split; [vm_compute in Hdf; injection Hdf as <-; reflexivity|].
  split; [|exact Hlen].
  vm_compute in Hrecords. injection Hrecords as <-. reflexivity.
Defined.

Lemma fit_speed_series_returns_witness :
  let C := Sample.collaborators in
  ∃ df a, @parse_fit_bytes C one_record = Ok df
    ∧ dataframe_to_apex_series df "speed_kmh" "f.fit" = Ok a.
Proof.
  intros C.
  destruct (@parse_fit_bytes C one_record) as [df|e] eqn:Hdf;
    [|vm_compute in Hdf; discriminate Hdf].
  destruct (proj2 (@fit_speed_series_returns C one_record df "f.fit" Hdf))
    as [a Ha].
  exists df, a. split; [reflexivity|exact Ha].
Defined.

Lemma parse_tcx_bytes_outcome_witness :
  let C := Sample.collaborators in
  @parse_tcx_bytes C [x3c; x05; xfe] = Raise OverflowError
  ∧ ∃ root tp s,
      @xml_fromstring C [x3c; x05; xfe] = Ok root
      ∧ tp ∈ descendants_or_self root
      ∧ get_first_xpath_text tp
          [("tcx", "HeartRateBpm"); ("tcx", "Value")]%string
          (normalize_tcx_nsmap root) = Ok (Some s)
      ∧ denotes_infinity s.
Proof.
  intros C.
  assert (@parse_tcx_bytes C [x3c; x05; xfe] = Raise OverflowError) as Hraise
    by (vm_compute; reflexivity).
  split; [exact Hraise|].
  destruct (proj1 (@parse_tcx_bytes_outcome C [x3c; x05; xfe]) _ Hraise)
    as [Hparser|[_ Hinf]]; [|exact Hinf].
  vm_compute in Hparser. discriminate Hparser.
Defined.

Lemma tcx_without_matching_namespace_is_empty_witness :
  let root :=
    Elem [] None "TrainingCenterDatabase" None
      [Elem [] None "Trackpoint" None [Elem [] None "Time" (Some "5") []]] in
  let C := {| fit_get_messages := Sample.decode_fit;
              xml_fromstring := λ _, Ok root;
              to_datetime := Sample.parse_datetime;
              argsort := Sample.argsort_stable |} in
  @xml_fromstring C [] = Ok root
  ∧ Forall (λ e, el_ns e = None) (descendants_or_self root)
  ∧ @parse_tcx_bytes C [] = Ok [].
Proof.
  intros root C.
  assert (@xml_fromstring C [] = Ok root) as Hroot by reflexivity.
  assert (Forall (λ e, el_ns e = None) (descendants_or_self root)) as Hnone
    by (repeat constructor).
  split; [exact Hroot|]. split; [exact Hnone|].
  exact (proj2 (@tcx_without_matching_namespace_is_empty C [] root Hroot) Hnone).
Defined.

Lemma tcx_frame_has_at_most_one_line_per_trackpoint_witness :
  let C := Sample.collaborators in
  let payload := [x3c; x05; x8c; xff; x50; x03; xfd] in
  argsort_spec (@argsort C)
  ∧ ∃ df root tps, @parse_tcx_bytes C payload = Ok df
      ∧ @xml_fromstring C payload = Ok root
      ∧ xpath_all root ("tcx", "Trackpoint")%string (normalize_tcx_nsmap root)
        = Ok tps
      ∧ length df = 2%nat
      ∧ (length df ≤ length tps)%nat.
Proof.
  intros C payload.
  assert (argsort_spec (@argsort C)) as Hsort
    by exact SampleFacts.argsort_stable_spec.
  split; [exact Hsort|].
  destruct (@parse_tcx_bytes C payload) as [df|e] eqn:Hdf;
    [|vm_compute in Hdf; discriminate Hdf].
  destruct (@tcx_frame_has_at_most_one_line_per_trackpoint C payload df
              Hsort Hdf) as (root & tps & Hroot & Htps & Hlen & _).
  exists df, root, tps. split; [reflexivity|]. split; [exact Hroot|].
  split; [exact Htps|]. split; [|exact Hlen].
  vm_compute in Hdf. injection Hdf as <-. reflexivity.
Defined.

Lemma upload_without_filename_is_skipped_witness :
  let C := Sample.collaborators in
  let f := {| filename := None; content := one_record |} in
  let good := {| filename := Some "a.fit"%string; content := one_record |} in
  (filename f = None ∨ filename f = Some ""%string)
  ∧ @parse_activity_files C ([good] ++ f :: [good])
    = @parse_activity_files C ([good] ++ [good]).
Proof.
  intros C f good.
  assert (filename f = None ∨ filename f = Some ""%string) as Hname
    by (left; reflexivity).
  split; [exact Hname|].
  exact (proj2 (proj2 (@upload_without_filename_is_skipped C f [good] [good]
                         Hname))).
Defined.

Lemma batch_returns_iff_every_file_does_witness :
  let C := Sample.collaborators in
  let good := {| filename := Some "a.fit"%string; content := one_record |} in
  let bad := {| filename := Some "b.tcx"%string; content := [x3c; x05; xfe] |} in
  (∃ r, @parse_activity_files C [good] = Ok r)
  ∧ Forall (@file_ok C) [good]
  ∧ ¬ Forall (@file_ok C) [good; bad].
Proof.
  intros C good bad.
  assert (∃ r, @parse_activity_files C [good] = Ok r) as Hgood.
  { destruct (@parse_activity_files C [good]) as [r|e] eqn:Hr;
      [by eexists|vm_compute in Hr; discriminate Hr]. }
  split; [exact Hgood|]. split.
  - exact (proj1 (@batch_returns_iff_every_file_does C [good]) Hgood).
  - intros Hall.
    destruct (proj2 (@batch_returns_iff_every_file_does C [good; bad]) Hall)
      as [r Hr].
    vm_compute in Hr. discriminate Hr.
Defined.

Lemma batches_compose_witness :
  let C := Sample.collaborators in
  let xs := [ {| filename := Some "a.fit"%string; content := one_record |} ] in
  let ys := [ {| filename := Some "b.tcx"%string; content := two_trackpoints |} ] in
  ∃ r1 r2 r l1 l2,
    @parse_activity_files C xs = Ok r1
    ∧ @parse_activity_files C ys = Ok r2
    ∧ @parse_activity_files C (xs ++ ys) = Ok r
    ∧ series r1 !! "hr_bpm"%string = Some l1
    ∧ series r2 !! "hr_bpm"%string = Some l2
    ∧ series r !! "hr_bpm"%string = Some (l1 ++ l2).
Proof.
  intros C xs ys.
  destruct (@parse_activity_files C xs) as [r1|e] eqn:H1;
    [|vm_compute in H1; discriminate H1].
  destruct (@parse_activity_files C ys) as [r2|e] eqn:H2;
    [|vm_compute in H2; discriminate H2].
  destruct (@parse_activity_files C (xs ++ ys)) as [r|e] eqn:H12;
    [|vm_compute in H12; discriminate H12].
  assert ("hr_bpm" ∈ SUPPORTED_METRICS)%string as Hm by (left; reflexivity).
  destruct (proj2 (@batches_compose C xs ys) r1 r2 r "hr_bpm"%string
              H1 H2 H12 Hm) as (l1 & l2 & Hl1 & Hl2 & Hl).
  exists r1, r2, r, l1, l2. repeat split; assumption.
Defined.

Lemma batch_raises_what_a_file_raises_witness :
  let C := Sample.collaborators in
  let files := [ {| filename := Some "a.fit"%string; content := one_record |};
                 {| filename := Some "b.tcx"%string; content := [] |} ] in
  @parse_activity_files C files = Raise XMLSyntaxError
  ∧ ∃ f, f ∈ files
      ∧ (@extract_dataframe_from_file C (filename_or_file f) (content f)
         = Raise XMLSyntaxError
         ∨ ∃ df m,
             @extract_dataframe_from_file C (filename_or_file f) (content f)
             = Ok df
             ∧ m ∈ SUPPORTED_METRICS
             ∧ dataframe_to_apex_series df m (filename_or_file f)
               = Raise XMLSyntaxError).
Proof.
  intros C files.
  assert (@parse_activity_files C files = Raise XMLSyntaxError) as Hraise
    by (vm_compute; reflexivity).
  split; [exact Hraise|].
  exact (@batch_raises_what_a_file_raises C files XMLSyntaxError Hraise).
Defined.
